(** * OpenAdapt: recording sharing and LLM completion, verified against the code

    A shallow embedding of two Python modules,

    - [openadapt/share.py]: export a recording, zip it, send it through the
      [wormhole] command-line tool, receive and unpack it, visualize it;
    - [puterbot/strategies/llm_mixin.py]: prompt truncation and completion
      decoding around a pretrained causal language model.

    Python values are modelled as follows.  An [int] is a [Z].  A [str] is a
    [string]; one character stands for one code point, and the model covers the
    code points below 256, among which the decimal digits matched by [\d] are
    exactly ['0'] to ['9'].  [None] is the [None] of an [option].  The file
    system is the finite set of paths of existing regular files, the process
    environment a finite map, the logger and standard output are lists.
    Collaborators whose code is outside these two modules (the database
    export, the [wormhole] child process, the zip extraction, the configuration
    module, SQLAlchemy, the visualizer, the tokenizer and the model) are fields
    of a record of effects, so every statement is about every behaviour they
    may have unless a hypothesis says otherwise.  [os.path] is the POSIX one. *)

From Stdlib Require Import ZArith List Lia Bool Ascii.
From Stdlib Require Import DecimalString DecimalN DecimalPos DecimalZ.
From stdpp Require Import base option gmap sets strings.

Local Open Scope string_scope.
Local Open Scope Z_scope.

(** ** The Python runtime: exceptions, world, effects *)

Module Py.

(** Exceptions the two modules can observe.  [OSError] stands for its
    subclasses too ([FileNotFoundError], [PermissionError], ...);
    [KeyboardInterrupt] is the one modelled exception that is not an instance
    of [Exception]. *)
Inductive exn : Type :=
| AssertionError (msg : string)
| ValueError (msg : string)
| TypeError (msg : string)
| IndexError (msg : string)
| OSError (msg : string)
| BadZipFile (msg : string)
| CalledProcessError (returncode : Z) (cmd : list string)
| Exception (msg : string)
| KeyboardInterrupt.

(** [isinstance(e, Exception)] *)
Definition is_Exception (e : exn) : bool :=
  match e with
  | KeyboardInterrupt => false
  | _ => true
  end.

(** [isinstance(e, subprocess.CalledProcessError)] *)
Definition is_CalledProcessError (e : exn) : bool :=
  match e with
  | CalledProcessError _ _ => true
  | _ => false
  end.

(** A record of the logger: the text of the f-string with the value it
    interpolates, or the exception handed to [logger.exception]. *)
Inductive log_entry : Type :=
| LogInfo (text value : string)
| LogException (e : exn).

Record World : Type := mkWorld {
  files : gset string;
  environ : gmap string string;
  stdout : list string;
  log : list log_entry
}.

Definition set_files (f : gset string) (w : World) : World :=
  mkWorld f (environ w) (stdout w) (log w).

Definition set_environ (e : gmap string string) (w : World) : World :=
  mkWorld (files w) e (stdout w) (log w).

Inductive outcome (A : Type) : Type :=
| Return (a : A)
| Raise (e : exn).
Arguments Return {A} a.
Arguments Raise {A} e.

(** What a collaborator or a primitive does: an outcome and a new world. *)
Definition effect (A : Type) : Type := World -> outcome A * World.

(** A run of a piece of code: its outcome, the world it leaves, and the worlds
    it went through, one after each primitive step or collaborator call. *)
Record run (A : Type) : Type := Run {
  result : outcome A;
  final : World;
  trace : list World
}.
Arguments Run {A} result final trace.
Arguments result {A} r.
Arguments final {A} r.
Arguments trace {A} r.

Definition M (A : Type) : Type := World -> run A.

#[global] Instance M_ret : MRet M := fun A a w => Run (Return a) w [].

#[global] Instance M_bind : MBind M := fun A B k m w =>
  let r := m w in
  match result r with
  | Return a => let r' := k a (final r) in
                Run (result r') (final r') (trace r ++ trace r')
  | Raise e => Run (Raise e) (final r) (trace r)
  end.

(** One step: a primitive of the runtime or a call of a collaborator. *)
Definition call {A} (f : effect A) : M A := fun w =>
  let '(o, w') := f w in Run o w' [w'].

Definition raise {A} (e : exn) : M A := fun w => Run (Raise e) w [].

(** [try: body / except <catches> as e: handler e] *)
Definition try_except {A} (body : M A) (catches : exn -> bool)
    (handler : exn -> M A) : M A := fun w =>
  let r := body w in
  match result r with
  | Return a => r
  | Raise e =>
      if catches e then
        let r' := handler e (final r) in
        Run (result r') (final r') (trace r ++ trace r')
      else r
  end.

(** [try: body / finally: fin]: [fin] runs whatever [body] did; an exception
    of [fin] replaces the pending outcome. *)
Definition try_finally {A} (body : M A) (fin : M unit) : M A := fun w =>
  let r := body w in
  let f := fin (final r) in
  match result f with
  | Return _ => Run (result r) (final f) (trace r ++ trace f)
  | Raise e => Run (Raise e) (final f) (trace r ++ trace f)
  end.

(** [with cm as x: body x], for a context manager whose [__exit__] does not
    suppress exceptions. *)
Definition with_ {R A} (enter : M R) (exit : R -> M unit) (body : R -> M A)
    : M A :=
  x ← enter; try_finally (body x) (exit x).

(** [assert cond, msg] *)
Definition assert_ (cond : bool) (msg : string) : M unit :=
  if cond then mret tt else raise (AssertionError msg).

(** *** Standard output and logger *)

Definition print (s : string) : M unit :=
  call (fun w => (Return tt, mkWorld (files w) (environ w) (stdout w ++ [s]) (log w))).

Definition logger_emit (e : log_entry) : M unit :=
  call (fun w => (Return tt, mkWorld (files w) (environ w) (stdout w) (log w ++ [e]))).

Definition logger_info (text value : string) : M unit :=
  logger_emit (LogInfo text value).

Definition logger_exception (e : exn) : M unit :=
  logger_emit (LogException e).

(** *** [os] *)

(** [os.path.exists(p)] *)
Definition os_path_exists (p : string) : M bool :=
  call (fun w => (Return (bool_decide (p ∈ files w)), w)).

(** [os.remove(p)]: an existing regular file is unlinked, a missing one is a
    [FileNotFoundError]. *)
Definition os_remove (p : string) : M unit :=
  call (fun w =>
    if bool_decide (p ∈ files w)
    then (Return tt, set_files (files w ∖ {[ p ]}) w)
    else (Raise (OSError "No such file or directory"), w)).

(** [os.getenv(k)] *)
Definition os_getenv (k : string) : M (option string) :=
  call (fun w => (Return (environ w !! k), w)).

Fixpoint has_nul (s : string) : bool :=
  match s with
  | EmptyString => false
  | String c s' => Ascii.eqb c zero || has_nul s'
  end.

(** [os.environ[k] = v]: the value has to be a [str] ([None] is a
    [TypeError]) without a null character. *)
Definition os_environ_setitem (k : string) (v : option string) : M unit :=
  match v with
  | None => raise (TypeError "str expected, not NoneType")
  | Some s =>
      if has_nul s then raise (ValueError "embedded null byte")
      else call (fun w => (Return tt, set_environ (<[ k := s ]> (environ w)) w))
  end.

Fixpoint has_slash (p : string) : bool :=
  match p with
  | EmptyString => false
  | String c p' => Ascii.eqb c "/" || has_slash p'
  end.

(** [os.path.basename(p)]: what follows the last slash. *)
Fixpoint basename (p : string) : string :=
  match p with
  | EmptyString => EmptyString
  | String c p' =>
      if Ascii.eqb c "/" || has_slash p' then basename p' else p
  end.

Fixpoint ends_with_slash (a : string) : bool :=
  match a with
  | EmptyString => false
  | String c EmptyString => Ascii.eqb c "/"
  | String _ a' => ends_with_slash a'
  end.

(** [os.path.join(a, b)] *)
Definition join (a b : string) : string :=
  match b with
  | String "/" _ => b
  | _ => if (a =? "")%string || ends_with_slash a then a +:+ b
         else a +:+ "/" +:+ b
  end.

(** *** [str(n)] and [int(s)] *)

(** [str(n)], also the [{n}] of an f-string: decimal, no leading zero, a
    minus sign for a negative number. *)
Definition str_of_int (n : Z) : string :=
  NilZero.string_of_int (Z.to_int n).

Definition is_digit (c : ascii) : bool :=
  let n := nat_of_ascii c in (48 <=? n)%nat && (n <=? 57)%nat.

Definition digit_value (c : ascii) : Z := Z.of_nat (nat_of_ascii c) - 48.

Fixpoint int_of_digits (acc : Z) (s : string) : option Z :=
  match s with
  | EmptyString => Some acc
  | String c s' =>
      if is_digit c then int_of_digits (10 * acc + digit_value c) s'
      else None
  end.

(** [int(s)] on a string of decimal digits; anything else is a
    [ValueError].  (Signs, blanks and underscores, which [int] also reads, do
    not occur in what the code hands to it.) *)
Definition int_of_str (s : string) : outcome Z :=
  match s with
  | EmptyString => Raise (ValueError "invalid literal for int()")
  | _ => match int_of_digits 0 s with
         | Some n => Return n
         | None => Raise (ValueError "invalid literal for int()")
         end
  end.

End Py.

(** ** Regular expressions: the backtracking matcher behind [re.match] *)

Module Re.

(** The constructs the pattern of [share.py] uses. *)
Inductive regex : Type :=
| Lit (s : string)             (* literal characters, escapes resolved *)
| Digit                        (* \d *)
| Cat (r1 r2 : regex)          (* r1 r2 *)
| Plus (r : regex)             (* r+, greedy *)
| Group (i : nat) (r : regex). (* ( r ), the capturing group number i *)

(** The state of a match: the input still to read and the groups captured so
    far. *)
Definition mstate : Type := string * gmap nat string.

Fixpoint str_take (n : nat) (s : string) : string :=
  match n, s with
  | S n', String c s' => String c (str_take n' s')
  | _, _ => EmptyString
  end.

(** The input after the literal [lit], if the input starts with it. *)
Fixpoint match_lit (lit s : string) : option string :=
  match lit with
  | EmptyString => Some s
  | String c lit' =>
      match s with
      | String d s' => if Ascii.eqb c d then match_lit lit' s' else None
      | EmptyString => None
      end
  end.

(** The greedy loop of [r+]: after one iteration that consumed input, first
    try another iteration, then fall back to the continuation.  At most [n]
    iterations; an iteration that consumes nothing ends the loop. *)
Fixpoint plus_loop (step : (mstate -> option mstate) -> mstate -> option mstate)
    (k : mstate -> option mstate) (n : nat) (st0 : mstate) : option mstate :=
  match n with
  | O => None
  | S n' =>
      step (fun st1 =>
              if (String.length (fst st1) <? String.length (fst st0))%nat
              then match plus_loop step k n' st1 with
                   | Some m => Some m
                   | None => k st1
                   end
              else k st1) st0
  end.

(** [run r k st]: match [r] at the head of the input of [st], then hand the
    state to the continuation [k]; when [k] fails, backtrack into [r]. *)
Fixpoint run (r : regex) (k : mstate -> option mstate) (st : mstate)
    : option mstate :=
  match r with
  | Lit l =>
      match match_lit l (fst st) with
      | Some rest => k (rest, snd st)
      | None => None
      end
  | Digit =>
      match fst st with
      | String c rest => if Py.is_digit c then k (rest, snd st) else None
      | EmptyString => None
      end
  | Cat r1 r2 => run r1 (run r2 k) st
  | Plus r' => plus_loop (run r') k (S (String.length (fst st))) st
  | Group i r' =>
      run r' (fun st' =>
                let n := (String.length (fst st) - String.length (fst st'))%nat in
                k (fst st', <[ i := str_take n (fst st) ]> (snd st'))) st
  end.

(** [re.match(pattern, s)]: a match anchored at the start of [s] only; the
    match object is the unread rest of [s] with the captured groups. *)
Definition re_match (pattern : regex) (s : string) : option mstate :=
  run pattern Some (s, ∅).

(** [re.fullmatch(pattern, s)]: the match has to use up [s]. *)
Definition re_fullmatch (pattern : regex) (s : string) : option mstate :=
  run pattern
    (fun st => match fst st with EmptyString => Some st | _ => None end)
    (s, ∅).

(** [m.group(i)] *)
Definition group (m : mstate) (i : nat) : option string := snd m !! i.

(** What [run] explores: [r] matches a prefix of [s], leaves [rest] and turns
    the groups [g] into [g']. *)
Inductive Matches : regex -> string -> string ->
    gmap nat string -> gmap nat string -> Prop :=
| M_Lit l s rest g :
    match_lit l s = Some rest -> Matches (Lit l) s rest g g
| M_Digit c rest g :
    Py.is_digit c = true -> Matches Digit (String c rest) rest g g
| M_Cat r1 r2 s s1 s2 g g1 g2 :
    Matches r1 s s1 g g1 -> Matches r2 s1 s2 g1 g2 ->
    Matches (Cat r1 r2) s s2 g g2
| M_Plus_one r s rest g g1 :
    Matches r s rest g g1 -> Matches (Plus r) s rest g g1
| M_Plus_more r s s1 s2 g g1 g2 :
    Matches r s s1 g g1 -> Matches (Plus r) s1 s2 g1 g2 ->
    Matches (Plus r) s s2 g g2
| M_Group i r s rest g g1 :
    Matches r s rest g g1 ->
    Matches (Group i r) s rest g
      (<[ i := str_take (String.length s - String.length rest) s ]> g1).

Fixpoint all_digits (s : string) : bool :=
  match s with
  | EmptyString => true
  | String c s' => Py.is_digit c && all_digits s'
  end.

End Re.

(** ** [openadapt/share.py] *)

Module Share.
Import Py.

(** What [share.py] uses and does not define.  [zip_open_fault] and
    [zip_write_fault] say when creating the archive or adding the entry fails
    (unwritable directory, unreadable source, full disk); [spawn] runs a child
    process to completion and gives its exit status; the engine and the
    session of SQLAlchemy are known by the URL they are bound to. *)
Record Collaborators : Type := {
  RECORDING_DIRECTORY_PATH : string;
  ROOT_DIRPATH : string;
  db_export_recording : Z -> effect string;
  os_makedirs : string -> effect unit;
  zip_open_fault : string -> World -> option exn;
  zip_write_fault : string -> string -> World -> option exn;
  zip_extractall : string -> string -> effect unit;
  spawn : list string -> effect Z;
  config_persist_env : string -> option string -> effect unit;
  config_set_db_url : string -> effect unit;
  create_engine : string -> effect string;
  Session_close : string -> effect unit;
  os_system : string -> effect Z;
  visualize_main : string -> effect unit
}.

(** [r"recording_\d+_(\d+)\.db"] *)
Definition pattern : Re.regex :=
  Re.Cat (Re.Lit "recording_")
    (Re.Cat (Re.Plus Re.Digit)
       (Re.Cat (Re.Lit "_")
          (Re.Cat (Re.Group 1 (Re.Plus Re.Digit))
             (Re.Lit ".db")))).

Definition extract_timestamp_from_filename (filename : string) : outcome Z :=
  match Re.re_match pattern filename with
  | Some m =>
      match Re.group m 1 with
      | Some timestamp_str => int_of_str timestamp_str
      | None => Raise (TypeError "int() argument must be a string")
      end
  | None => Raise (ValueError "Invalid filename format.")
  end.

(** [f"recording_{recording_id}_{timestamp}.db"] *)
Definition db_filename_of (recording_id timestamp : Z) : string :=
  "recording_" +:+ str_of_int recording_id +:+ "_" +:+ str_of_int timestamp
  +:+ ".db".

(** [f"recording_{recording_id}_{timestamp}.zip"] *)
Definition zip_filename_of (recording_id timestamp : Z) : string :=
  "recording_" +:+ str_of_int recording_id +:+ "_" +:+ str_of_int timestamp
  +:+ ".zip".

Definition lift {A} (o : outcome A) : M A := fun w => Run o w [].

Section Code.

Variable c : Collaborators.

(** [ZipFile(zip_path, "w", ZIP_DEFLATED, compresslevel=9)]: the archive file
    is created, or truncated, when the object is built. *)
Definition ZipFile_w (zip_path : string) : M unit :=
  call (fun w =>
    match zip_open_fault c zip_path w with
    | Some e => (Raise e, w)
    | None => (Return tt, set_files (files w ∪ {[ zip_path ]}) w)
    end).

(** [zip_file.write(src, arcname=arcname)] *)
Definition ZipFile_write (src arcname : string) : M unit :=
  call (fun w =>
    match zip_write_fault c src arcname w with
    | Some e => (Raise e, w)
    | None =>
        if bool_decide (src ∈ files w) then (Return tt, w)
        else (Raise (OSError "No such file or directory"), w)
    end).

(** [ZipFile(zip_path, "r")] *)
Definition ZipFile_r (zip_path : string) : M unit :=
  call (fun w =>
    if bool_decide (zip_path ∈ files w) then (Return tt, w)
    else (Raise (OSError "No such file or directory"), w)).

(** [ZipFile.__exit__]: the archive is closed and stays where it is. *)
Definition ZipFile_close : M unit := mret tt.

Definition export_recording_to_folder (recording_id : Z) : M string :=
  recording_db_path ← call (db_export_recording c recording_id);
  assert_ (negb (recording_db_path =? "")%string) recording_db_path;;
  call (os_makedirs c (RECORDING_DIRECTORY_PATH c));;
  timestamp ← lift (extract_timestamp_from_filename (basename recording_db_path));
  let db_filename := db_filename_of recording_id timestamp in
  let zip_filename := zip_filename_of recording_id timestamp in
  let zip_path := join (RECORDING_DIRECTORY_PATH c) zip_filename in
  with_ (ZipFile_w zip_path) (fun _ => ZipFile_close)
    (fun _ => ZipFile_write recording_db_path db_filename);;
  logger_info "created zip_path" zip_path;;
  os_remove recording_db_path;;
  logger_info "deleted recording_db_path" recording_db_path;;
  mret zip_path.

(** [subprocess.run(command, check=True)] *)
Definition subprocess_run_check (command : list string) : M unit :=
  returncode ← call (spawn c command);
  if returncode =? 0 then mret tt
  else raise (CalledProcessError returncode command).

(** The message of the new exception also carries the text of the caught
    one, which is left out here. *)
Definition send_file (file_path : string) : M unit :=
  let command := ["wormhole"; "send"; file_path] in
  try_except (subprocess_run_check command) is_CalledProcessError
    (fun e => raise (Exception "Error occurred while running 'wormhole send'")).

Definition send_recording (recording_id : Z) : M unit :=
  zip_file_path ← export_recording_to_folder recording_id;
  print zip_file_path;;
  assert_ (negb (zip_file_path =? "")%string) zip_file_path;;
  try_finally
    (try_except (send_file zip_file_path) is_Exception
       (fun exc => logger_exception exc))
    (present ← os_path_exists zip_file_path;
     if (present : bool) then
       os_remove zip_file_path;;
       logger_info "deleted zip_file_path" zip_file_path
     else mret tt).

(** The path [receive_recording] receives into. *)
Definition received_zip_path : string :=
  join (RECORDING_DIRECTORY_PATH c) "recording.zip".

Definition receive_recording (wormhole_code : string) : M unit :=
  let output_directory := RECORDING_DIRECTORY_PATH c in
  call (os_makedirs c output_directory);;
  let zip_filename := "recording.zip" in
  let zip_path := join output_directory zip_filename in
  let command := ["wormhole"; "receive"; "-o"; zip_path; wormhole_code] in
  try_finally
    (try_except
       (subprocess_run_check command;;
        with_ (ZipFile_r zip_path) (fun _ => ZipFile_close)
          (fun _ => call (zip_extractall c zip_path output_directory)))
       is_CalledProcessError
       (fun exc => logger_exception exc))
    (present ← os_path_exists zip_path;
     if (present : bool) then
       os_remove zip_path;;
       logger_info "deleted zip_path" zip_path
     else mret tt).

(** Lines 167 to 185 of [visualize_recording]: everything before the [try];
    gives [old_val] and the engine. *)
Definition visualize_recording_setup (db_name : string)
    : M (option string * string) :=
  let recording_path :=
    if (db_name =? "openadapt.db")%string then join (ROOT_DIRPATH c) db_name
    else join (RECORDING_DIRECTORY_PATH c) db_name in
  let recording_url := "sqlite:///" +:+ recording_path in
  old_val ← os_getenv "DB_FNAME";
  call (config_persist_env c "DB_FNAME" (Some db_name));;
  os_environ_setitem "DB_FNAME" (Some db_name);;
  call (config_set_db_url c db_name);;
  engine ← call (create_engine c recording_url);
  mret (old_val, engine).

(** Lines 187 to 198: the [try] statement. *)
Definition visualize_recording_try (old_val : option string) (engine : string)
    : M unit :=
  try_finally
    (try_except
       (with_ (mret engine) (fun session => call (Session_close c session))
          (fun session =>
             call (os_system c "alembic upgrade head");;
             call (visualize_main c session)))
       is_Exception
       (fun exc => logger_exception exc))
    (os_environ_setitem "DB_FNAME" old_val;;
     call (config_persist_env c "DB_FNAME" old_val)).

Definition visualize_recording (db_name : string) : M unit :=
  '(old_val, engine) ← visualize_recording_setup db_name;
  visualize_recording_try old_val engine.

End Code.

(** [filename] starts with [recording_<digits>_<digits>.db]. *)
Definition starts_with_recording_name (filename : string) : Prop :=
  exists d1 d2 rest,
    Re.all_digits d1 = true /\ d1 <> "" /\
    Re.all_digits d2 = true /\ d2 <> "" /\
    filename = "recording_" +:+ d1 +:+ "_" +:+ d2 +:+ ".db" +:+ rest.

(** The archive path [export_recording_to_folder] derives, for a run whose
    exported file is [db]. *)
Definition zip_path_for (c : Collaborators) (id : Z) (db : string)
    : option string :=
  match extract_timestamp_from_filename (basename db) with
  | Return ts => Some (join (RECORDING_DIRECTORY_PATH c) (zip_filename_of id ts))
  | Raise _ => None
  end.

(** The exported file and the archive of a run, when it gets that far. *)
Definition artifact_of (c : Collaborators) (id : Z) (w : World)
    : option string :=
  match fst (db_export_recording c id w) with
  | Return db => Some db
  | Raise _ => None
  end.

Definition archive_of (c : Collaborators) (id : Z) (w : World)
    : option string :=
  artifact_of c id w ≫= zip_path_for c id.

(** The set of a path, if there is one. *)
Definition opt_set (o : option string) : gset string :=
  match o with
  | Some p => {[ p ]}
  | None => ∅
  end.

(** The command line of the receiving child process. *)
Definition receive_command (c : Collaborators) (wormhole_code : string)
    : list string :=
  ["wormhole"; "receive"; "-o"; received_zip_path c; wormhole_code].

(** What a collaborator may be assumed to leave alone. *)
Definition creates_no_file {A} (f : effect A) : Prop :=
  forall w, files (snd (f w)) ⊆ files w.

Definition keeps_environ {A} (f : effect A) : Prop :=
  forall w, environ (snd (f w)) = environ w.

(** The database export writes at most the file it returns the path of. *)
Definition writes_its_file_only (f : effect string) : Prop :=
  forall w,
    files (snd (f w)) ⊆
    files w ∪ match fst (f w) with
              | Return path => {[ path ]}
              | Raise _ => ∅
              end.

(** No collaborator of [visualize_recording] writes to [os.environ]. *)
Definition environ_untouched (c : Collaborators) : Prop :=
  (forall k v, keeps_environ (config_persist_env c k v)) /\
  (forall n, keeps_environ (config_set_db_url c n)) /\
  (forall u, keeps_environ (create_engine c u)) /\
  (forall s, keeps_environ (Session_close c s)) /\
  (forall cmd, keeps_environ (os_system c cmd)) /\
  (forall s, keeps_environ (visualize_main c s)).

End Share.

(** ** [puterbot/strategies/llm_mixin.py] *)

Module LLMMixin.
Import Py.

Section Mixin.

(** Token ids. *)
Variable token : Type.

(** What the tokenizer returns for one prompt: tensors of shape [(1, N)],
    kept as their single row. *)
Record BatchEncoding : Type := {
  input_ids : list token;
  attention_mask : list Z
}.

(** The calls [get_completion] makes, with their arguments, in order. *)
Inductive event : Type :=
| Warning_truncating (len_prompt model_max_length : Z)
| Debug_prompt (prompt : string) (max_tokens : Z)
| Tokenize (prompt : string)
| Generate (input_ids : list token) (attention_mask : list Z)
    (max_length : Z) (pad_token_id : token) (num_return_sequences : Z)
| Decode (tokens : list token) (clean_up_tokenization_spaces : bool)
| Debug_completion (completion : string).

(** The attributes of [self] that [get_completion] reads.  The tokenizer and
    the model come from [transformers]; [model_max_length] is an [int] or
    [None] (the annotation of [__init__] says [str], its default is the
    integer 1024, and the comparison with [len(prompt)] needs a number). *)
Record LLMReplayStrategyMixin : Type := {
  tokenizer_call : string -> outcome BatchEncoding;
  tokenizer_decode : list token -> bool -> outcome string;
  tokenizer_eos_token_id : token;
  model_generate :
    list token -> list Z -> Z -> token -> Z -> outcome (list (list token));
  model_max_length : option Z
}.

(** A computation that records the calls it makes. *)
Definition T (A : Type) : Type := (list event * outcome A)%type.

Definition events {A} (t : T A) : list event := fst t.
Definition returned {A} (t : T A) : outcome A := snd t.

#[global] Instance T_ret : MRet T := fun A a => ([], Return a).

#[global] Instance T_bind : MBind T := fun A B k m =>
  match snd m with
  | Return a => ((fst m ++ fst (k a))%list, snd (k a))
  | Raise e => (fst m, Raise e)
  end.

Definition emit (e : event) : T unit := ([e], Return tt).

(** A call of a collaborator, recorded with its arguments. *)
Definition ask {A} (e : event) (o : outcome A) : T A := ([e], o).

(** [s[:k]] *)
Definition slice_to (s : string) (k : Z) : string :=
  let n := Z.of_nat (String.length s) in
  let stop := if k <? 0 then Z.max 0 (k + n) else Z.min k n in
  Re.str_take (Z.to_nat stop) s.

(** [bool(v)] for an [int] or [None] *)
Definition truthy (v : option Z) : bool :=
  match v with
  | Some z => negb (z =? 0)
  | None => false
  end.

Definition get_completion (self : LLMReplayStrategyMixin) (prompt : string)
    (max_tokens : Z) : T string :=
  let model_max_length := model_max_length self in
  prompt ←
    match model_max_length with
    | Some m =>
        if truthy model_max_length && (Z.of_nat (String.length prompt) >? m)
        then
          emit (Warning_truncating (Z.of_nat (String.length prompt)) m);;
          mret (slice_to prompt m)
        else mret prompt
    | None => mret prompt
    end;
  emit (Debug_prompt prompt max_tokens);;
  input_tokens ← ask (Tokenize prompt) (tokenizer_call self prompt);
  let pad_token_id := tokenizer_eos_token_id self in
  let attention_mask := attention_mask input_tokens in
  let max_length := Z.of_nat (length (input_ids input_tokens)) + max_tokens in
  output_tokens ←
    ask (Generate (input_ids input_tokens) attention_mask max_length
           pad_token_id 1)
        (model_generate self (input_ids input_tokens) attention_mask
           max_length pad_token_id 1);
  let N := length (input_ids input_tokens) in
  tokens ←
    match map (skipn N) output_tokens with
    | row :: _ => mret row
    | [] => ([], Raise (IndexError "index 0 is out of bounds"))
    end;
  completion ← ask (Decode tokens true) (tokenizer_decode self tokens true);
  emit (Debug_completion completion);;
  mret completion.

(** The prompts handed to the tokenizer and the token lists handed to
    [decode], read off the recorded calls. *)
Definition tokenized (evs : list event) : list string :=
  omap (fun e => match e with Tokenize p => Some p | _ => None end) evs.

Definition decoded (evs : list event) : list (list token) :=
  omap (fun e => match e with Decode t _ => Some t | _ => None end) evs.

End Mixin.

Arguments input_ids {token} b.
Arguments attention_mask {token} b.
Arguments Tokenize {token} prompt.
Arguments Decode {token} tokens clean_up_tokenization_spaces.
Arguments Generate {token}.
Arguments Warning_truncating {token}.
Arguments Debug_prompt {token}.
Arguments Debug_completion {token}.
Arguments emit {token} e.
Arguments ask {token A} e o.
Arguments events {token A} t.
Arguments returned {token A} t.
Arguments get_completion {token} self prompt max_tokens.
Arguments tokenized {token} evs.
Arguments decoded {token} evs.
Arguments model_max_length {token} l.
Arguments tokenizer_call {token} l.
Arguments tokenizer_decode {token} l.
Arguments model_generate {token} l.
Arguments tokenizer_eos_token_id {token} l.

End LLMMixin.

(** ** [LLMReplayStrategyMixin.__init__] *)

Module LLMInit.
Import Py LLMMixin.

Definition MODEL_NAME : string := "gpt2".
Definition MODEL_MAX_LENGTH : Z := 1024.

Section Constructor.

Variable token : Type.

(** [puterbot.models.Recording] *)
Variable Recording : Type.

(** What [from_pretrained] gives: the methods [get_completion] calls. *)
Record PreTrainedTokenizer : Type := {
  __call__ : string -> outcome (BatchEncoding token);
  decode : list token -> bool -> outcome string;
  eos_token_id : token
}.

Record PreTrainedModel : Type := {
  generate :
    list token -> list Z -> Z -> token -> Z -> outcome (list (list token))
}.

(** The base class and the [transformers] library. *)
Record Libraries : Type := {
  BaseReplayStrategy_init : Recording -> outcome unit;
  AutoTokenizer_from_pretrained : string -> outcome PreTrainedTokenizer;
  AutoModelForCausalLM_from_pretrained : string -> outcome PreTrainedModel
}.

(** The calls [__init__] makes, in order. *)
Inductive init_event : Type :=
| Super_init
| Info_model_name (model_name : string)
| Load_tokenizer (model_name : string)
| Load_model (model_name : string).

Definition W (A : Type) : Type := (list init_event * outcome A)%type.

#[local] Instance W_ret : MRet W := fun A a => ([], Return a).

#[local] Instance W_bind : MBind W := fun A B k m =>
  match snd m with
  | Return a => ((fst m ++ fst (k a))%list, snd (k a))
  | Raise e => (fst m, Raise e)
  end.

Definition did {A} (e : init_event) (o : outcome A) : W A := ([e], o).

(** [__init__]; the object it initialises is returned. *)
Definition __init__ (lib : Libraries) (recording : Recording)
    (model_name : string) (model_max_length : option Z)
    : W (LLMReplayStrategyMixin token) :=
  did Super_init (BaseReplayStrategy_init lib recording);;
  did (Info_model_name model_name) (Return tt);;
  tokenizer ← did (Load_tokenizer model_name)
                  (AutoTokenizer_from_pretrained lib model_name);
  model ← did (Load_model model_name)
              (AutoModelForCausalLM_from_pretrained lib model_name);
  mret {| tokenizer_call := __call__ tokenizer;
          tokenizer_decode := decode tokenizer;
          tokenizer_eos_token_id := eos_token_id tokenizer;
          model_generate := generate model;
          model_max_length := model_max_length |}.

End Constructor.

Arguments __init__ {token Recording} lib recording model_name model_max_length.
Arguments __call__ {token} p.
Arguments decode {token} p.
Arguments eos_token_id {token} p.
Arguments generate {token} p.
Arguments Build_PreTrainedTokenizer {token}.
Arguments Build_PreTrainedModel {token}.
Arguments Build_Libraries {token Recording}.

End LLMInit.

(** ** Concrete collaborators, to run the code on *)

Module Examples.
Import Py Share.

(** An empty disk, an empty environment. *)
Definition empty_world : World := mkWorld ∅ ∅ [] [].

(** A database export that writes the file [path]. *)
Definition export_to (path : string) : Z -> effect string :=
  fun _ w => (Return path, set_files (files w ∪ {[ path ]}) w).

(** A [wormhole] that exits with [status]; in receive mode it has written the
    output file by then. *)
Definition wormhole (status : Z) : list string -> effect Z :=
  fun command w =>
    match command with
    | [_; "receive"; _; zip_path; _] =>
        (Return status, set_files (files w ∪ {[ zip_path ]}) w)
    | _ => (Return status, w)
    end.

(** A child process that is interrupted from the keyboard. *)
Definition interrupted : list string -> effect Z :=
  fun _ w => (Raise KeyboardInterrupt, w).

(** Collaborators that touch nothing but what their arguments name. *)
Definition collaborators (export : Z -> effect string)
    (write_fault : option exn) (extract : outcome unit)
    (process : list string -> effect Z) (visualizer : outcome unit)
    : Collaborators := {|
  RECORDING_DIRECTORY_PATH := "recordings";
  ROOT_DIRPATH := "/openadapt";
  db_export_recording := export;
  os_makedirs := fun _ w => (Return tt, w);
  zip_open_fault := fun _ _ => None;
  zip_write_fault := fun _ _ _ => write_fault;
  zip_extractall := fun _ _ w => (extract, w);
  spawn := process;
  config_persist_env := fun _ _ w => (Return tt, w);
  config_set_db_url := fun _ w => (Return tt, w);
  create_engine := fun url w => (Return url, w);
  Session_close := fun _ w => (Return tt, w);
  os_system := fun _ w => (Return 0, w);
  visualize_main := fun _ w => (visualizer, w)
|}.

Definition exported_db : string := "recordings/recording_1_1700000000.db".
Definition exported_zip : string := "recordings/recording_1_1700000000.zip".

(** Everything works. *)
Definition all_fine : Collaborators :=
  collaborators (export_to exported_db) None (Return tt) (wormhole 0) (Return tt).

(** The transfer tool exits with status 1. *)
Definition transfer_fails : Collaborators :=
  collaborators (export_to exported_db) None (Return tt) (wormhole 1) (Return tt).

(** The transfer is interrupted from the keyboard. *)
Definition transfer_interrupted : Collaborators :=
  collaborators (export_to exported_db) None (Return tt) interrupted (Return tt).

(** Adding the entry to the archive fails. *)
Definition archive_write_fails : Collaborators :=
  collaborators (export_to exported_db) (Some (OSError "No space left on device"))
    (Return tt) (wormhole 0) (Return tt).

(** The database export names its file differently. *)
Definition odd_export_name : Collaborators :=
  collaborators (export_to "recordings/export_1.db") None (Return tt)
    (wormhole 0) (Return tt).

(** The received file is not a zip archive. *)
Definition bad_archive : Collaborators :=
  collaborators (export_to exported_db) None
    (Raise (BadZipFile "File is not a zip file")) (wormhole 0) (Return tt).

(** The visualizer raises. *)
Definition visualizer_raises : Collaborators :=
  collaborators (export_to exported_db) None (Return tt) (wormhole 0)
    (Raise (Exception "no such table: recording")).

(** A toy language model over character codes: the tokenizer maps a
    character to its code, the model echoes its input and appends one token,
    [decode] maps codes back to characters. *)
Fixpoint toy_encode (s : string) : list nat :=
  match s with
  | EmptyString => []
  | String c s' => nat_of_ascii c :: toy_encode s'
  end.

Fixpoint toy_decode (l : list nat) : string :=
  match l with
  | [] => EmptyString
  | n :: l' => String (ascii_of_nat n) (toy_decode l')
  end.

Definition toy_mixin (max_length : option Z)
    : LLMMixin.LLMReplayStrategyMixin nat := {|
  LLMMixin.tokenizer_call := fun prompt =>
    Return {| LLMMixin.input_ids := toy_encode prompt;
              LLMMixin.attention_mask := map (fun _ => 1) (toy_encode prompt) |};
  LLMMixin.tokenizer_decode := fun tokens _ => Return (toy_decode tokens);
  LLMMixin.tokenizer_eos_token_id := 0%nat;
  LLMMixin.model_generate := fun ids _ _ _ _ => Return [(ids ++ [33%nat])%list];
  LLMMixin.model_max_length := max_length
|}.

(** A database export that gives no path. *)
Definition no_export_path : Collaborators :=
  collaborators (fun _ w => (Return "", w)) None (Return tt) (wormhole 0) (Return tt).

(** The transfer tool is not installed: starting it fails. *)
Definition tool_missing : Collaborators :=
  collaborators (export_to exported_db) None (Return tt)
    (fun _ w => (Raise (OSError "No such file or directory: 'wormhole'"), w))
    (Return tt).

(** The transfer tool exits with status 0 and has written nothing. *)
Definition nothing_received : Collaborators :=
  collaborators (export_to exported_db) None (Return tt)
    (fun _ w => (Return 0, w)) (Return tt).

(** The archive holds one database file. *)
Definition unpacks_database : Collaborators := {|
  RECORDING_DIRECTORY_PATH := "recordings";
  ROOT_DIRPATH := "/openadapt";
  db_export_recording := export_to exported_db;
  os_makedirs := fun _ w => (Return tt, w);
  zip_open_fault := fun _ _ => None;
  zip_write_fault := fun _ _ _ => None;
  zip_extractall := fun _ directory w =>
    (Return tt, set_files (files w ∪ {[ exported_db ]}) w);
  spawn := wormhole 0;
  config_persist_env := fun _ _ w => (Return tt, w);
  config_set_db_url := fun _ w => (Return tt, w);
  create_engine := fun url w => (Return url, w);
  Session_close := fun _ w => (Return tt, w);
  os_system := fun _ w => (Return 0, w);
  visualize_main := fun _ w => (Return tt, w)
|}.

(** The toy language model with a tokenizer or a model that fails. *)
Definition faulty_mixin (tokenizer_fault model_fault : option exn)
    : LLMMixin.LLMReplayStrategyMixin nat := {|
  LLMMixin.tokenizer_call := fun prompt =>
    match tokenizer_fault with
    | Some e => Raise e
    | None => LLMMixin.tokenizer_call (toy_mixin None) prompt
    end;
  LLMMixin.tokenizer_decode := fun tokens _ => Return (toy_decode tokens);
  LLMMixin.tokenizer_eos_token_id := 0%nat;
  LLMMixin.model_generate := fun ids _ _ _ _ =>
    match model_fault with
    | Some e => Raise e
    | None => Return [(ids ++ [33%nat])%list]
    end;
  LLMMixin.model_max_length := None
|}.

(** A toy language model that adds exclamation marks up to [max_length]
    tokens. *)
Definition bounded_mixin : LLMMixin.LLMReplayStrategyMixin nat := {|
  LLMMixin.tokenizer_call := LLMMixin.tokenizer_call (toy_mixin None);
  LLMMixin.tokenizer_decode := fun tokens _ => Return (toy_decode tokens);
  LLMMixin.tokenizer_eos_token_id := 0%nat;
  LLMMixin.model_generate := fun ids _ max_length _ _ =>
    Return [firstn (Z.to_nat max_length) (ids ++ repeat 33%nat 8)%list];
  LLMMixin.model_max_length := None
|}.
(** The toy language model as a library to load it from. *)
Definition toy_library : LLMInit.Libraries nat unit := {|
  LLMInit.BaseReplayStrategy_init := fun _ => Return tt;
  LLMInit.AutoTokenizer_from_pretrained := fun _ =>
    Return {| LLMInit.__call__ := LLMMixin.tokenizer_call (toy_mixin None);
              LLMInit.decode := LLMMixin.tokenizer_decode (toy_mixin None);
              LLMInit.eos_token_id := 0%nat |};
  LLMInit.AutoModelForCausalLM_from_pretrained := fun _ =>
    Return {| LLMInit.generate := LLMMixin.model_generate (toy_mixin None) |}
|}.

(** A string of [n] letters. *)
Fixpoint letters (n : nat) : string :=
  match n with
  | O => EmptyString
  | S n' => String "a" (letters n')
  end.

End Examples.

(** * Proofs *)

(** ** Strings, the matcher, decimal numbers *)

Module StrFacts.

Lemma app_cons c (s t : string) : String c s +:+ t = String c (s +:+ t).
Proof. reflexivity. Qed.

Lemma app_nil_l (t : string) : "" +:+ t = t.
Proof. reflexivity. Qed.

Lemma app_assoc (a b c : string) : (a +:+ b) +:+ c = a +:+ (b +:+ c).
Proof. induction a as [|x a IH]; [reflexivity|]. rewrite !app_cons. now rewrite IH. Qed.

Lemma length_app (a b : string) :
  String.length (a +:+ b) = (String.length a + String.length b)%nat.
Proof. induction a as [|x a IH]; [reflexivity|]. rewrite app_cons. simpl. now rewrite IH. Qed.

Lemma str_take_app (a b : string) : Re.str_take (String.length a) (a +:+ b) = a.
Proof. induction a as [|x a IH]; simpl.
  - now destruct b.
  - change (String x a +:+ b) with (String x (a +:+ b)). simpl. now rewrite IH. Qed.

End StrFacts.

Module ReFacts.
Import Re StrFacts.

Lemma match_lit_app l rest : match_lit l (l +:+ rest) = Some rest.
Proof.
  induction l as [|c l IH]; [reflexivity|].
  rewrite app_cons. simpl. now rewrite Ascii.eqb_refl.
Qed.

Lemma match_lit_inv l : forall s rest, match_lit l s = Some rest -> s = l +:+ rest.
Proof.
  induction l as [|c l IH]; intros s rest H; simpl in H.
  - now inversion H.
  - destruct s as [|d s]; [discriminate|].
    destruct (Ascii.eqb c d) eqn:E; [|discriminate].
    apply Ascii.eqb_eq in E. subst d. rewrite app_cons. f_equal. now apply IH.
Qed.

Definition nonempty (s : string) : Prop := s <> "".

(** The input does not go on with a digit. *)
Definition stops (s : string) : Prop :=
  match s with
  | String c _ => Py.is_digit c = false
  | EmptyString => True
  end.

Lemma plus_loop_digit_stop k n rest g :
  stops rest -> plus_loop (run Digit) k n (rest, g) = None.
Proof.
  intros Hs. destruct n; [reflexivity|]. simpl.
  destruct rest as [|c rest]; [reflexivity|]. simpl in Hs. now rewrite Hs.
Qed.

Lemma plus_loop_digit_step k n c s g :
  Py.is_digit c = true ->
  plus_loop (run Digit) k (S n) (String c s, g) =
  match plus_loop (run Digit) k n (s, g) with
  | Some m => Some m
  | None => k (s, g)
  end.
Proof.
  intros Hc. simpl. rewrite Hc.
  replace (String.length s <? S (String.length s))%nat with true; [reflexivity|].
  symmetry. apply Nat.ltb_lt. lia.
Qed.

(** Greedy [\d+] on a run of digits that stops: the whole run is tried
    first, so a continuation that accepts there decides the match. *)
Lemma plus_loop_digits ds : forall k n rest g m,
  all_digits ds = true -> ds <> "" -> stops rest ->
  (String.length ds <= n)%nat ->
  k (rest, g) = Some m ->
  plus_loop (run Digit) k n (ds +:+ rest, g) = Some m.
Proof.
  induction ds as [|c ds IH]; intros k n rest g m Hd Hne Hs Hn Hk; [congruence|].
  simpl in Hd. apply andb_true_iff in Hd as [Hc Hd].
  destruct n as [|n]; [simpl in Hn; lia|].
  rewrite app_cons, plus_loop_digit_step by assumption.
  destruct ds as [|c' ds'].
  - rewrite app_nil_l, plus_loop_digit_stop by assumption. exact Hk.
  - rewrite (IH k n rest g m); try assumption; [reflexivity|congruence|simpl in *; lia].
Qed.

Lemma run_plus_digits ds k rest g m :
  all_digits ds = true -> ds <> "" -> stops rest ->
  k (rest, g) = Some m ->
  run (Plus Digit) k (ds +:+ rest, g) = Some m.
Proof.
  intros.
  change (run (Plus Digit) k (ds +:+ rest, g))
    with (plus_loop (run Digit) k (S (String.length (ds +:+ rest))) (ds +:+ rest, g)).
  apply plus_loop_digits; try assumption.
  rewrite length_app. lia.
Qed.

(** Whatever [run] accepts is a match that the continuation accepted. *)
Lemma plus_loop_sound (step : (mstate -> option mstate) -> mstate -> option mstate) r :
  (forall k s g m, step k (s, g) = Some m ->
     exists rest g', Matches r s rest g g' /\ k (rest, g') = Some m) ->
  forall n k s g m, plus_loop step k n (s, g) = Some m ->
     exists rest g', Matches (Plus r) s rest g g' /\ k (rest, g') = Some m.
Proof.
  intros Hstep n. induction n as [|n IH]; intros k s g m H; [discriminate|].
  simpl in H. apply Hstep in H as (s1 & g1 & Hm & Hk). simpl in Hk.
  destruct (String.length s1 <? String.length s)%nat.
  - destruct (plus_loop step k n (s1, g1)) as [m'|] eqn:E.
    + inversion Hk; subst m'. apply IH in E as (s2 & g2 & Hm2 & Hk2).
      exists s2, g2. split; [|exact Hk2]. eapply M_Plus_more; eassumption.
    + exists s1, g1. split; [|exact Hk]. now apply M_Plus_one.
  - exists s1, g1. split; [|exact Hk]. now apply M_Plus_one.
Qed.

Lemma run_sound r : forall k s g m, run r k (s, g) = Some m ->
  exists rest g', Matches r s rest g g' /\ k (rest, g') = Some m.
Proof.
  induction r as [l| |r1 IH1 r2 IH2|r IH|i r IH]; intros k s g m H.
  - simpl in H. destruct (match_lit l s) as [rest|] eqn:E; [|discriminate].
    exists rest, g. split; [now constructor|exact H].
  - simpl in H. destruct s as [|c rest]; [discriminate|].
    destruct (Py.is_digit c) eqn:E; [|discriminate].
    exists rest, g. split; [now constructor|exact H].
  - simpl in H. apply IH1 in H as (s1 & g1 & Hm1 & H).
    apply IH2 in H as (s2 & g2 & Hm2 & H).
    exists s2, g2. split; [|exact H]. eapply M_Cat; eassumption.
  - eapply plus_loop_sound; [exact IH|exact H].
  - simpl in H. apply IH in H as (rest & g1 & Hm & H). simpl in H.
    eexists _, _. split; [|exact H]. now constructor.
Qed.

Lemma Matches_lit l s rest g g' :
  Matches (Lit l) s rest g g' -> s = l +:+ rest /\ g' = g.
Proof. inversion 1; subst. split; [now apply match_lit_inv|reflexivity]. Qed.

Lemma Matches_plus_digit s rest g g' :
  Matches (Plus Digit) s rest g g' ->
  exists ds, s = ds +:+ rest /\ all_digits ds = true /\ ds <> "" /\ g' = g.
Proof.
  intros H. remember (Plus Digit) as r eqn:Hr.
  induction H as [| | |r0 s rest g g1 H _|r0 s s1 s2 g g1 g2 H1 _ H2 IH|];
    try discriminate; inversion Hr; subst r0.
  - inversion H; subst. exists (String c ""). repeat split; try congruence.
    simpl. now rewrite andb_true_r.
  - inversion H1; subst. destruct (IH eq_refl) as (ds & -> & Hd & Hne & ->).
    exists (String c ds). repeat split; try congruence.
    simpl. now rewrite Hd, andb_true_r.
Qed.

End ReFacts.

Module IntFacts.
Import Py.

Lemma all_digits_uint d : Re.all_digits (NilEmpty.string_of_uint d) = true.
Proof. induction d; simpl; auto. Qed.

Lemma int_of_digits_acc d : forall acc,
  int_of_digits (Z.pos acc) (NilEmpty.string_of_uint d) =
  Some (Z.pos (Pos.of_uint_acc d acc)).
Proof.
  induction d; intros acc; simpl; [reflexivity|..];
    match goal with
    | |- int_of_digits ?a _ = Some (Z.pos (Pos.of_uint_acc _ ?b)) =>
        replace a with (Z.pos b) by
          (match goal with
           | |- context [digit_value ?c] =>
               let v := eval vm_compute in (digit_value c) in
               change (digit_value c) with v
           end; lia)
    end; apply IHd.
Qed.

Lemma int_of_digits_uint d :
  int_of_digits 0 (NilEmpty.string_of_uint d) = Some (Z.of_N (Pos.of_uint d)).
Proof.
  induction d; simpl; [reflexivity|exact IHd|..];
    match goal with
    | |- int_of_digits ?a _ = _ =>
        let v := eval vm_compute in a in change a with v
    end; apply int_of_digits_acc.
Qed.

Lemma str_of_int_pos p : str_of_int (Z.pos p) = NilEmpty.string_of_uint (Pos.to_uint p).
Proof.
  unfold str_of_int. simpl. pose proof (Unsigned.to_uint_nonnil p) as H.
  destruct (Pos.to_uint p); [congruence|reflexivity..].
Qed.

Lemma string_of_uint_nonempty d : d <> Decimal.Nil -> NilEmpty.string_of_uint d <> "".
Proof. destruct d; simpl; congruence. Qed.

(** [str] of a natural number is a non-empty string of digits that [int]
    reads back. *)
Lemma str_of_int_spec n : 0 <= n ->
  Re.all_digits (str_of_int n) = true /\ str_of_int n <> "" /\
  int_of_str (str_of_int n) = Return n.
Proof.
  intros Hn. destruct n as [|p|p]; [now repeat split| |lia].
  rewrite str_of_int_pos. split; [apply all_digits_uint|].
  pose proof (string_of_uint_nonempty _ (Unsigned.to_uint_nonnil p)) as Hne.
  split; [exact Hne|]. unfold int_of_str.
  destruct (NilEmpty.string_of_uint (Pos.to_uint p)) eqn:E; [congruence|].
  rewrite <- E, int_of_digits_uint, Unsigned.of_to. reflexivity.
Qed.

(** [int] reads every non-empty string of digits. *)
Lemma int_of_digits_total s : forall acc,
  Re.all_digits s = true -> exists n, int_of_digits acc s = Some n.
Proof.
  induction s as [|c s IH]; intros acc H; simpl in *; [eauto|].
  apply andb_true_iff in H as [Hc Hs]. rewrite Hc. now apply IH.
Qed.

Lemma int_of_str_total s :
  Re.all_digits s = true -> s <> "" -> exists n, int_of_str s = Return n.
Proof.
  intros Hd Hne. unfold int_of_str. destruct s as [|c s]; [congruence|].
  destruct (int_of_digits_total (String c s) 0 Hd) as [n ->]. eauto.
Qed.

End IntFacts.

Module Codec.
Import Py Re Share StrFacts ReFacts IntFacts.

Lemma run_lit_app l k rest g : run (Lit l) k (l +:+ rest, g) = k (rest, g).
Proof. simpl. now rewrite match_lit_app. Qed.

Lemma run_cat a b k st : run (Cat a b) k st = run a (run b k) st.
Proof. reflexivity. Qed.

Lemma run_group i r k s g :
  run (Group i r) k (s, g) =
  run r (fun st' =>
           k (fst st',
              <[ i := str_take (String.length s - String.length (fst st')) s ]>
                (snd st'))) (s, g).
Proof. reflexivity. Qed.

Lemma re_match_recording_name d1 d2 rest :
  all_digits d1 = true -> d1 <> "" -> all_digits d2 = true -> d2 <> "" ->
  re_match pattern ("recording_" +:+ d1 +:+ "_" +:+ d2 +:+ ".db" +:+ rest)
  = Some (rest, {[ 1%nat := d2 ]}).
Proof.
  intros H1 N1 H2 N2. unfold re_match, pattern.
  rewrite run_cat, run_lit_app, run_cat.
  apply run_plus_digits; [assumption..|reflexivity|].
  rewrite run_cat, run_lit_app, run_cat, run_group.
  apply run_plus_digits; [assumption..|reflexivity|].
  cbn [fst snd]. rewrite run_lit_app, length_app.
  replace (String.length d2 + String.length (".db" +:+ rest) - String.length (".db" +:+ rest))%nat
    with (String.length d2) by lia.
  now rewrite str_take_app.
Qed.

Lemma re_match_pattern_inv filename m :
  re_match pattern filename = Some m ->
  exists d1 d2 rest,
    all_digits d1 = true /\ d1 <> "" /\ all_digits d2 = true /\ d2 <> "" /\
    filename = "recording_" +:+ d1 +:+ "_" +:+ d2 +:+ ".db" +:+ rest /\
    group m 1 = Some d2.
Proof.
  unfold re_match. intros H.
  apply run_sound in H as (rest & g' & Hm & Hk). inversion Hk; subst m; clear Hk.
  unfold pattern in Hm.
  inversion Hm as [| |? ? ? s1 ? ? g1 ? Ha Hb| | |]; subst; clear Hm.
  apply Matches_lit in Ha as [-> ->].
  inversion Hb as [| |? ? ? s2 ? ? g2 ? Hc Hd| | |]; subst; clear Hb.
  apply Matches_plus_digit in Hc as (d1 & -> & Hd1 & Hn1 & ->).
  inversion Hd as [| |? ? ? s3 ? ? g3 ? He Hf| | |]; subst; clear Hd.
  apply Matches_lit in He as [-> ->].
  inversion Hf as [| |? ? ? s4 ? ? g4 ? Hg Hh| | |]; subst; clear Hf.
  apply Matches_lit in Hh as [-> ->].
  inversion Hg as [| | | | |? ? ? ? ? g5 Hi]; subst; clear Hg.
  apply Matches_plus_digit in Hi as (d2 & -> & Hd2 & Hn2 & ->).
  exists d1, d2, rest. repeat split; try assumption.
  unfold group. cbn [snd]. rewrite lookup_insert_eq. f_equal.
  rewrite length_app.
  replace (String.length d2 + String.length (".db" +:+ rest) - String.length (".db" +:+ rest))%nat
    with (String.length d2) by lia.
  apply str_take_app.
Qed.

Lemma extract_recording_name d1 d2 rest :
  all_digits d1 = true -> d1 <> "" -> all_digits d2 = true -> d2 <> "" ->
  extract_timestamp_from_filename
    ("recording_" +:+ d1 +:+ "_" +:+ d2 +:+ ".db" +:+ rest) = int_of_str d2.
Proof.
  intros. unfold extract_timestamp_from_filename.
  rewrite re_match_recording_name by assumption.
  unfold group. cbn [snd]. now rewrite lookup_singleton_eq.
Qed.

(** C3.  For a recording id and a timestamp that are natural numbers,
    decoding the file name [recording_<id>_<timestamp>.db] gives the
    timestamp back. *)
Theorem extract_roundtrip (recording_id timestamp : Z) :
  0 <= recording_id -> 0 <= timestamp ->
  extract_timestamp_from_filename (db_filename_of recording_id timestamp)
  = Return timestamp.
Proof.
  intros Hid Hts.
  destruct (str_of_int_spec _ Hid) as (D1 & N1 & _).
  destruct (str_of_int_spec _ Hts) as (D2 & N2 & R2).
  unfold db_filename_of.
  change ".db" with (".db" +:+ "").
  rewrite extract_recording_name by assumption. exact R2.
Qed.

(** The round trip at id 1 and timestamp 1700000000. *)
Lemma extract_roundtrip_witness :
  extract_timestamp_from_filename (db_filename_of 1 1700000000) = Return 1700000000.
Proof. apply extract_roundtrip; lia. Defined.

(** C4, as the code has it.  [extract_timestamp_from_filename] raises
    [ValueError("Invalid filename format.")] exactly on the file names that
    do not start with [recording_<digits>_<digits>.db]; what follows the
    [.db] is not looked at. *)
Theorem extract_rejects_iff (filename : string) :
  extract_timestamp_from_filename filename = Raise (ValueError "Invalid filename format.")
  <-> ~ starts_with_recording_name filename.
Proof.
  split.
  - intros H (d1 & d2 & rest & H1 & N1 & H2 & N2 & ->).
    rewrite extract_recording_name in H by assumption.
    destruct (int_of_str_total d2 H2 N2) as [n Hn]. congruence.
  - intros H. unfold extract_timestamp_from_filename.
    destruct (re_match pattern filename) as [m|] eqn:E; [|reflexivity].
    exfalso. apply H.
    apply re_match_pattern_inv in E as (d1 & d2 & rest & ? & ? & ? & ? & ? & _).
    exists d1, d2, rest. auto.
Qed.

(** C4 fails as stated: [recording_1_1700000000.db.bak] is not a full match
    of the pattern, and it is decoded all the same. *)
Lemma extract_accepts_trailing_text :
  re_fullmatch pattern "recording_1_1700000000.db.bak" = None /\
  extract_timestamp_from_filename "recording_1_1700000000.db.bak" = Return 1700000000.
Proof. split; reflexivity. Qed.

End Codec.

(** ** A program logic for runs *)

Module Hoare.
Import Py.

(** [wp m w I Q]: running [m] from [w], every world gone through satisfies
    [I], and the outcome and the world left satisfy [Q]. *)
Definition wp {A} (m : M A) (w : World) (I : World -> Prop)
    (Q : outcome A -> World -> Prop) : Prop :=
  Forall I (trace (m w)) /\ Q (result (m w)) (final (m w)).

Section Rules.
Context {A B : Type}.
Implicit Types (I : World -> Prop) (w : World).

Lemma wp_ret (a : A) w I Q : Q (Return a) w -> wp (mret a) w I Q.
Proof. intros H. split; [constructor|exact H]. Qed.

Lemma wp_raise e w I (Q : outcome A -> World -> Prop) :
  Q (Raise e) w -> wp (raise e) w I Q.
Proof. intros H. split; [constructor|exact H]. Qed.

Lemma wp_call (f : effect A) w I Q :
  I (snd (f w)) /\ Q (fst (f w)) (snd (f w)) -> wp (call f) w I Q.
Proof.
  intros [HI HQ]. unfold wp, call. destruct (f w) as [o w']. simpl in *.
  split; [repeat constructor; exact HI|exact HQ].
Qed.

Lemma wp_bind (m : M A) (k : A -> M B) w I Q :
  wp m w I (fun o w1 =>
    match o with
    | Return a => wp (k a) w1 I Q
    | Raise e => Q (Raise e) w1
    end) ->
  wp (m ≫= k) w I Q.
Proof.
  unfold wp, mbind, M_bind. intros [HI H]. simpl.
  destruct (result (m w)) as [a|e]; simpl.
  - destruct H as [HI' H]. split; [apply Forall_app; split; assumption|exact H].
  - split; assumption.
Qed.

Lemma wp_try_except (body : M A) (catches : exn -> bool) handler w I Q :
  wp body w I (fun o w1 =>
    match o with
    | Return a => Q (Return a) w1
    | Raise e => if catches e then wp (handler e) w1 I Q else Q (Raise e) w1
    end) ->
  wp (try_except body catches handler) w I Q.
Proof.
  unfold wp, try_except. intros [HI H].
  destruct (result (body w)) as [a|e] eqn:E; simpl.
  - split; [exact HI|]. now rewrite E.
  - destruct (catches e); simpl.
    + destruct H as [HI' H]. split; [apply Forall_app; split; assumption|exact H].
    + split; [exact HI|]. now rewrite E.
Qed.

Lemma wp_try_finally (body : M A) fin w I Q :
  wp body w I (fun o w1 =>
    wp fin w1 I (fun o' w2 =>
      match o' with
      | Return _ => Q o w2
      | Raise e => Q (Raise e) w2
      end)) ->
  wp (try_finally body fin) w I Q.
Proof.
  unfold wp, try_finally. intros [HI [HI' H]].
  destruct (result (fin (final (body w)))) as [u|e]; simpl;
    (split; [apply Forall_app; split; assumption|exact H]).
Qed.

Lemma wp_conseq (m : M A) w I (Q Q' : outcome A -> World -> Prop) :
  wp m w I Q -> (forall o w', Q o w' -> Q' o w') -> wp m w I Q'.
Proof. intros [HI H] HQ. split; [exact HI|now apply HQ]. Qed.

End Rules.

Lemma wp_with {R A} (enter : M R) (exit : R -> M unit) (body : R -> M A) w I Q :
  wp enter w I (fun o w1 =>
    match o with
    | Return x => wp (try_finally (body x) (exit x)) w1 I Q
    | Raise e => Q (Raise e) w1
    end) ->
  wp (with_ enter exit body) w I Q.
Proof. intros H. unfold with_. now apply wp_bind. Qed.

Lemma wp_assert (cond : bool) msg w I (Q : outcome unit -> World -> Prop) :
  (if cond then Q (Return tt) w else Q (Raise (AssertionError msg)) w) ->
  wp (assert_ cond msg) w I Q.
Proof. unfold assert_. destruct cond; intros H; [now apply wp_ret|now apply wp_raise]. Qed.

Lemma wp_lift {A} (o : outcome A) w I Q : Q o w -> wp (Share.lift o) w I Q.
Proof. intros H. split; [constructor|exact H]. Qed.

End Hoare.

(** ** [share.py]: the export and the transfer *)

Module ShareFacts.
Import Py Share Hoare.

#[local] Arguments join : simpl never.
#[local] Arguments zip_filename_of : simpl never.
#[local] Arguments db_filename_of : simpl never.

(** A primitive of the runtime: run it. *)
Ltac wp_prim :=
  unfold print, logger_info, logger_exception, logger_emit, os_path_exists,
    os_remove, os_getenv, ZipFile_w, ZipFile_write, ZipFile_r, ZipFile_close;
  first [apply wp_call; cbn [fst snd] | apply wp_ret].

(** A call of a collaborator: name what it gives. *)
Ltac wp_oracle o w' E :=
  apply wp_call;
  lazymatch goal with
  | |- context [snd (?f ?w)] => destruct (f w) as [o w'] eqn:E; cbn [fst snd]
  end.

(** An invariant that holds of every world with no more files than [w]. *)
Definition below (w : World) (I : World -> Prop) : Prop :=
  forall w', files w' ⊆ files w -> I w'.

Lemma below_mono w w' I : files w' ⊆ files w -> below w I -> below w' I.
Proof. intros H HI w'' H'. apply HI. set_solver. Qed.

(** The [finally] clause of [send_recording] and of [receive_recording]. *)
Lemma wp_remove_if_exists (zip_path text : string) w I (Q : outcome unit -> World -> Prop) :
  below w I ->
  (forall w', files w' ⊆ files w ∖ {[ zip_path ]} ->
     (zip_path ∈ files w -> log w' = (log w ++ [LogInfo text zip_path])%list) ->
     (zip_path ∉ files w -> log w' = log w) ->
     Q (Return tt) w') ->
  wp (present ← os_path_exists zip_path;
      if (present : bool) then
        os_remove zip_path;; logger_info text zip_path
      else mret tt) w I Q.
Proof.
  intros HI HQ. apply wp_bind. wp_prim. split; [now apply HI|].
  case_bool_decide as Hin.
  - apply wp_bind. wp_prim. rewrite bool_decide_eq_true_2 by assumption.
    cbn [fst snd set_files files]. split; [apply HI; set_solver|].
    wp_prim. split; [apply HI; cbn [files]; set_solver|].
    apply HQ; cbn [files log]; [set_solver|reflexivity|contradiction].
  - apply wp_ret. apply HQ; [set_solver|contradiction|reflexivity].
Qed.

Section SendPhase.
Variable c : Collaborators.

Lemma wp_subprocess_run_check command w I (Q : outcome unit -> World -> Prop) :
  creates_no_file (spawn c command) ->
  below w I ->
  (forall w', files w' ⊆ files w -> Q (Return tt) w') ->
  (forall w' e, files w' ⊆ files w -> Q (Raise e) w') ->
  wp (subprocess_run_check c command) w I Q.
Proof.
  intros Hframe HI Hret Hraise. unfold subprocess_run_check.
  apply wp_bind. wp_oracle o w' E.
  pose proof (Hframe w) as Hf. rewrite E in Hf. cbn [snd] in Hf.
  split; [now apply HI|].
  destruct o as [code|e]; [|now apply Hraise].
  destruct (code =? 0).
  - apply wp_ret. now apply Hret.
  - apply wp_raise. now apply Hraise.
Qed.

Hypothesis send_frame :
  forall file_path, creates_no_file (spawn c ["wormhole"; "send"; file_path]).

Lemma wp_send_file file_path w I (Q : outcome unit -> World -> Prop) :
  below w I ->
  (forall w', files w' ⊆ files w -> Q (Return tt) w') ->
  (forall w' e, files w' ⊆ files w -> Q (Raise e) w') ->
  wp (send_file c file_path) w I Q.
Proof.
  intros HI Hret Hraise. unfold send_file.
  apply wp_try_except.
  apply wp_subprocess_run_check; [apply send_frame|assumption|assumption|].
  intros w' e Hw'. destruct (is_CalledProcessError e).
  - apply wp_raise. now apply Hraise.
  - now apply Hraise.
Qed.

(** The [try] statement of [send_recording]: whatever the transfer does, no
    file appears and the archive is gone afterwards. *)
Lemma wp_send_and_clean zip_file_path w I :
  below w I ->
  wp (try_finally
        (try_except (send_file c zip_file_path) is_Exception
           (fun exc => logger_exception exc))
        (present ← os_path_exists zip_file_path;
         if (present : bool) then
           os_remove zip_file_path;;
           logger_info "deleted zip_file_path" zip_file_path
         else mret tt))
     w I (fun o wf => files wf ⊆ files w ∖ {[ zip_file_path ]}).
Proof.
  intros HI. apply wp_try_finally, wp_try_except.
  apply wp_send_file; [assumption| |].
  - intros w' Hw'. apply wp_remove_if_exists; [now apply (below_mono w)|].
    intros w'' Hw'' _ _. set_solver.
  - intros w' e Hw'. destruct (is_Exception e).
    + wp_prim. cbn [files]. split; [now apply HI|].
      apply wp_remove_if_exists; [now apply (below_mono w)|].
      cbn [files]. intros w'' Hw'' _ _. set_solver.
    + apply wp_remove_if_exists; [now apply (below_mono w)|].
      intros w'' Hw'' _ _. set_solver.
Qed.

End SendPhase.

Lemma join_nonempty a b : b <> "" -> join a b <> "".
Proof.
  intros Hb. unfold join. destruct b as [|x b]; [congruence|].
  assert (Hne : forall a', a' +:+ String x b <> "").
  { intros [|y a']; discriminate. }
  assert (Hj : (if (a =? "")%string || ends_with_slash a then a +:+ String x b
                else a +:+ "/" +:+ String x b) <> "").
  { destruct ((a =? "")%string || ends_with_slash a); [apply Hne|].
    destruct a; discriminate. }
  destruct x as [[] [] [] [] [] [] [] []]; try exact Hj; congruence.
Qed.

Lemma zip_filename_nonempty id ts : zip_filename_of id ts <> "".
Proof. discriminate. Qed.

Lemma wp_bind_run {A B} (m : M A) (k : A -> M B) w I Q :
  Forall I (trace (m w)) ->
  match result (m w) with
  | Return a => wp (k a) (final (m w)) I Q
  | Raise e => Q (Raise e) (final (m w))
  end ->
  wp (m ≫= k) w I Q.
Proof. intros HI H. apply wp_bind. split; [exact HI|exact H]. Qed.

Section ExportPhase.
Variable c : Collaborators.

(** [export_recording_to_folder] once the export has written [db]: between
    the directory creation and the end, the only file that appears is the
    archive, and a run that returns has deleted [db]. *)
Lemma wp_export id w db w1 (I : World -> Prop) :
  db_export_recording c id w = (Return db, w1) ->
  I w1 ->
  let w2 := snd (os_makedirs c (RECORDING_DIRECTORY_PATH c) w1) in
  (forall w', files w' ⊆
              files w2 ∪ match zip_path_for c id db with
                         | Some zip => {[ zip ]}
                         | None => ∅
                         end -> I w') ->
  wp (export_recording_to_folder c id) w I
    (fun o wf =>
       match o with
       | Return zip =>
           zip_path_for c id db = Some zip /\
           files wf ⊆ (files w2 ∪ {[ zip ]}) ∖ {[ db ]}
       | Raise _ => True
       end).
Proof.
  intros E HI1 w2 HI. unfold export_recording_to_folder.
  apply wp_bind, wp_call. rewrite E. cbn [fst snd]. split; [exact HI1|].
  apply wp_bind, wp_assert. destruct (negb (db =? "")%string); [|trivial].
  apply wp_bind, wp_call. fold w2.
  split; [apply HI; set_solver|].
  destruct (fst (os_makedirs c (RECORDING_DIRECTORY_PATH c) w1)) as [[]|e]; [|trivial].
  apply wp_bind, wp_lift.
  unfold zip_path_for in *.
  destruct (extract_timestamp_from_filename (basename db)) as [ts|e]; [|trivial].
  set (zip := join (RECORDING_DIRECTORY_PATH c) (zip_filename_of id ts)) in *.
  apply wp_bind, wp_with. wp_prim.
  destruct (zip_open_fault c zip w2); cbn [fst snd];
    (split; [apply HI; cbn [files set_files]; set_solver|]); [trivial|].
  apply wp_try_finally. wp_prim.
  destruct (zip_write_fault c db (db_filename_of id ts) _); cbn [fst snd files set_files].
  { split; [apply HI; cbn [files set_files]; set_solver|]. wp_prim. trivial. }
  case_bool_decide as Hdb; cbn [fst snd files set_files];
    (split; [apply HI; cbn [files set_files]; set_solver|]);
    wp_prim; [|trivial].
  apply wp_bind. wp_prim. split; [apply HI; cbn [files]; set_solver|].
  apply wp_bind. wp_prim. cbn [files].
  rewrite bool_decide_eq_true_2 by assumption. cbn [fst snd files set_files].
  split; [apply HI; cbn [files]; set_solver|].
  apply wp_bind. wp_prim. split; [apply HI; cbn [files]; set_solver|].
  apply wp_ret. split; [reflexivity|]. cbn [files]. set_solver.
Qed.

Lemma zip_path_for_nonempty id db zip :
  zip_path_for c id db = Some zip -> zip <> "".
Proof.
  unfold zip_path_for.
  destruct (extract_timestamp_from_filename (basename db)); [|discriminate].
  intros [= <-]. apply join_nonempty, zip_filename_nonempty.
Qed.

(** [send_recording] once the export has written [db]: when the archiving
    got through, neither [db] nor the archive is left, however the call
    ends. *)
Lemma wp_send_recording id w db w1 (I : World -> Prop) :
  (forall file_path, creates_no_file (spawn c ["wormhole"; "send"; file_path])) ->
  db_export_recording c id w = (Return db, w1) ->
  I w1 ->
  let w2 := snd (os_makedirs c (RECORDING_DIRECTORY_PATH c) w1) in
  (forall w', files w' ⊆
              files w2 ∪ match zip_path_for c id db with
                         | Some zip => {[ zip ]}
                         | None => ∅
                         end -> I w') ->
  wp (send_recording c id) w I
    (fun o wf =>
       forall zip, result (export_recording_to_folder c id w) = Return zip ->
         zip_path_for c id db = Some zip /\ (db ∉ files wf) /\ zip ∉ files wf).
Proof.
  intros Hsp E HI1 w2 HI. unfold send_recording.
  destruct (wp_export id w db w1 I E HI1 HI) as [Htr Hq].
  apply wp_bind_run; [exact Htr|].
  destruct (result (export_recording_to_folder c id w)) as [zip|e];
    [|intros ?; discriminate].
  destruct Hq as [Hz Hfiles]. fold w2 in Hfiles. rewrite Hz in HI.
  set (w3 := final (export_recording_to_folder c id w)) in *.
  assert (Hbelow : below w3 I) by (intros w' Hw'; apply HI; set_solver).
  apply wp_bind. wp_prim. split; [now apply Hbelow|].
  apply wp_bind, wp_assert.
  pose proof (zip_path_for_nonempty _ _ _ Hz) as Hne.
  apply String.eqb_neq in Hne. rewrite Hne. cbn [negb].
  eapply wp_conseq.
  - apply wp_send_and_clean; [exact Hsp|]. exact Hbelow.
  - cbn [files]. intros o wf Hwf zip' [= <-]. split; [exact Hz|]. set_solver.
Qed.

End ExportPhase.

End ShareFacts.

(** ** [send_recording] *)

Module SendProofs.
Import Py Share Hoare ShareFacts Examples.

Lemma bind_returns {A B} (m : M A) (k : A -> M B) w b :
  result ((m ≫= k) w) = Return b -> exists a, result (m w) = Return a.
Proof.
  unfold mbind, M_bind. cbn. destruct (result (m w)) as [a|e]; [eauto|discriminate].
Qed.

Lemma export_returns c id w zip :
  result (export_recording_to_folder c id w) = Return zip ->
  exists db w1, db_export_recording c id w = (Return db, w1).
Proof.
  intros H. unfold export_recording_to_folder in H.
  apply bind_returns in H as [db H]. unfold call in H.
  destruct (db_export_recording c id w) as [o w1]. cbn in H. subst o. eauto.
Qed.

Lemma wormhole_send_creates_no_file status file_path :
  creates_no_file (wormhole status ["wormhole"; "send"; file_path]).
Proof. intros w. reflexivity. Qed.

(** C1.  When [send_recording] returns, whether the transfer succeeded or
    its failure was swallowed, neither the exported database file nor the zip
    archive exists on disk; the transfer tool is assumed to create no file
    while it sends. *)
Theorem send_recording_leaves_no_files c recording_id w :
  (forall file_path, creates_no_file (spawn c ["wormhole"; "send"; file_path])) ->
  result (send_recording c recording_id w) = Return tt ->
  exists recording_db_path zip_path,
    fst (db_export_recording c recording_id w) = Return recording_db_path /\
    result (export_recording_to_folder c recording_id w) = Return zip_path /\
    (recording_db_path ∉ files (final (send_recording c recording_id w))) /\
    zip_path ∉ files (final (send_recording c recording_id w)).
Proof.
  intros Hsp Hret.
  destruct (bind_returns _ _ _ _ Hret) as [zip Hzip].
  destruct (export_returns _ _ _ _ Hzip) as (db & w1 & E).
  destruct (wp_send_recording c recording_id w db w1 (fun _ => True) Hsp E)
    as [_ H]; [trivial..|].
  destruct (H zip Hzip) as (_ & Hdb & Hz).
  exists db, zip. rewrite E. auto.
Qed.

(** A transfer that exits with status 1: the failure is swallowed, the call
    returns, and both files are gone. *)
Lemma send_recording_leaves_no_files_witness :
  result (send_recording transfer_fails 1 empty_world) = Return tt /\
  exists recording_db_path zip_path,
    fst (db_export_recording transfer_fails 1 empty_world) = Return recording_db_path /\
    result (export_recording_to_folder transfer_fails 1 empty_world) = Return zip_path /\
    (recording_db_path ∉ files (final (send_recording transfer_fails 1 empty_world))) /\
    zip_path ∉ files (final (send_recording transfer_fails 1 empty_world)).
Proof.
  split; [vm_compute; reflexivity|].
  apply send_recording_leaves_no_files; [|vm_compute; reflexivity].
  intros file_path. apply wormhole_send_creates_no_file.
Defined.

(** C6 fails as stated: when adding the entry to the archive fails, the
    call raises and leaves both the exported file and the archive that was
    already created. *)
Lemma archive_write_failure_leaves_files :
  result (send_recording archive_write_fails 1 empty_world)
  = Raise (OSError "No space left on device") /\
  exported_db ∈ files (final (send_recording archive_write_fails 1 empty_world)) /\
  exported_zip ∈ files (final (send_recording archive_write_fails 1 empty_world)).
Proof.
  split; [vm_compute; reflexivity|].
  split; apply (bool_decide_unpack _); vm_compute; exact I.
Qed.

Lemma elem_of_opt_set p o : p ∈ opt_set o <-> o = Some p.
Proof. destruct o as [q|]; cbn; [|set_solver]. rewrite elem_of_singleton. split; congruence. Qed.

(** C6, as the code has it.  At any time during [send_recording] the files
    on disk that were not there before are at most the exported database file
    and the archive; and when [export_recording_to_folder] returned, neither
    of the two is left when the call ends, by a return or by an exception.
    The export is assumed to write at most the file it names, the directory
    creation and the sending transfer tool to create no file. *)
Theorem send_recording_files c recording_id w :
  writes_its_file_only (db_export_recording c recording_id) ->
  (forall d, creates_no_file (os_makedirs c d)) ->
  (forall file_path, creates_no_file (spawn c ["wormhole"; "send"; file_path])) ->
  let artifact := artifact_of c recording_id w in
  let archive := archive_of c recording_id w in
  Forall (fun w' => forall p, p ∈ files w' ->
            p ∈ files w \/ artifact = Some p \/ archive = Some p)
    (trace (send_recording c recording_id w)) /\
  (forall zip_path,
     result (export_recording_to_folder c recording_id w) = Return zip_path ->
     archive = Some zip_path /\
     exists recording_db_path,
       artifact = Some recording_db_path /\
       (recording_db_path ∉ files (final (send_recording c recording_id w))) /\
       zip_path ∉ files (final (send_recording c recording_id w))).
Proof.
  intros Hexp Hmk Hsp artifact archive.
  assert (Hwp : wp (send_recording c recording_id) w
    (fun w' => files w' ⊆ files w ∪ opt_set artifact ∪ opt_set archive)
    (fun o wf => forall zip_path,
       result (export_recording_to_folder c recording_id w) = Return zip_path ->
       archive = Some zip_path /\
       exists recording_db_path,
         artifact = Some recording_db_path /\
         (recording_db_path ∉ files wf) /\ zip_path ∉ files wf)).
  { subst artifact archive. unfold archive_of, artifact_of.
    pose proof (Hexp w) as Hw1.
    destruct (db_export_recording c recording_id w) as [[db|e] w1] eqn:E;
      cbn [fst snd mbind option_bind opt_set] in *.
    - pose proof (Hmk (RECORDING_DIRECTORY_PATH c) w1) as Hw2.
      eapply wp_conseq.
      + apply (wp_send_recording c recording_id w db w1 _ Hsp E).
        * clear -Hw1. set_solver.
        * intros w' Hw'. unfold opt_set.
          destruct (zip_path_for c recording_id db); clear -Hw' Hw1 Hw2; set_solver.
      + cbn beta. intros o wf H zip Hzip.
        destruct (H zip Hzip) as (Hz & Hdb & Hnz). eauto.
    - unfold send_recording, export_recording_to_folder.
      apply wp_bind, wp_bind, wp_call. rewrite E. cbn [fst snd].
      split; [clear -Hw1; set_solver|].
      intros zip Hzip. apply export_returns in Hzip as (db & w1' & E'). congruence. }
  destruct Hwp as [Htr H]. split; [|exact H].
  eapply Forall_impl; [exact Htr|]. cbn beta. intros w' Hw' p Hp.
  apply Hw' in Hp. rewrite !elem_of_union, !elem_of_opt_set in Hp. tauto.
Qed.

(** A transfer interrupted from the keyboard: the exception propagates and
    the files are gone. *)
Lemma send_recording_files_witness :
  Forall (fun w' => forall p, p ∈ files w' ->
            p ∈ files empty_world \/
            artifact_of transfer_interrupted 1 empty_world = Some p \/
            archive_of transfer_interrupted 1 empty_world = Some p)
    (trace (send_recording transfer_interrupted 1 empty_world)) /\
  (forall zip_path,
     result (export_recording_to_folder transfer_interrupted 1 empty_world) = Return zip_path ->
     archive_of transfer_interrupted 1 empty_world = Some zip_path /\
     exists recording_db_path,
       artifact_of transfer_interrupted 1 empty_world = Some recording_db_path /\
       (recording_db_path ∉ files (final (send_recording transfer_interrupted 1 empty_world))) /\
       zip_path ∉ files (final (send_recording transfer_interrupted 1 empty_world))).
Proof.
  apply send_recording_files.
  - intros w. cbn. reflexivity.
  - intros d w. reflexivity.
  - intros file_path w. reflexivity.
Defined.

End SendProofs.

(** ** [receive_recording] *)

Module ReceiveProofs.
Import Py Share Hoare ShareFacts Examples.

#[local] Arguments join : simpl never.

Lemma below_True w : below w (fun _ => True).
Proof. intros w' _. exact I. Qed.

Lemma wp_any {A} (m : M A) w : wp m w (fun _ => True) (fun _ _ => True).
Proof. split; [|exact I]. apply Forall_forall. intros; exact I. Qed.

(** C9.  Once the output directory is there, [recording.zip] does not exist
    when [receive_recording] ends, however it ends: by a return, by a
    swallowed transfer failure, or by an exception that propagates, since the
    deletion is in the [finally] clause. *)
Theorem receive_recording_removes_archive c wormhole_code w :
  fst (os_makedirs c (RECORDING_DIRECTORY_PATH c) w) = Return tt ->
  received_zip_path c ∉ files (final (receive_recording c wormhole_code w)).
Proof.
  intros Hmk.
  assert (Hwp : wp (receive_recording c wormhole_code) w (fun _ => True)
                  (fun _ wf => received_zip_path c ∉ files wf)).
  { unfold receive_recording. apply wp_bind, wp_call. rewrite Hmk.
    split; [exact I|]. apply wp_try_finally.
    eapply wp_conseq; [apply wp_any|]. intros o w1 _.
    apply wp_remove_if_exists; [apply below_True|].
    intros w' Hw' _ _. unfold received_zip_path. set_solver. }
  exact (proj2 Hwp).
Qed.

(** An archive that cannot be read: [BadZipFile] propagates, and the
    received file is deleted. *)
Lemma receive_recording_removes_archive_witness :
  result (receive_recording bad_archive "7-guitarist-revenge" empty_world)
  = Raise (BadZipFile "File is not a zip file") /\
  received_zip_path bad_archive ∉
    files (final (receive_recording bad_archive "7-guitarist-revenge" empty_world)).
Proof.
  split; [vm_compute; reflexivity|].
  apply receive_recording_removes_archive. reflexivity.
Defined.

(** C5 fails as stated: the transfer succeeds, the extraction raises
    [BadZipFile], and the caller gets the exception. *)
Lemma bad_archive_propagates :
  fst (spawn bad_archive (receive_command bad_archive "7-guitarist-revenge")
         empty_world) = Return 0 /\
  result (receive_recording bad_archive "7-guitarist-revenge" empty_world)
  = Raise (BadZipFile "File is not a zip file").
Proof. split; vm_compute; reflexivity. Qed.

(** C5, as the code has it.  A transfer subprocess that exits with a
    non-zero status is logged and swallowed: [receive_recording] returns.  An
    extraction that raises anything but [CalledProcessError] is not caught:
    the exception reaches the caller. *)
Theorem receive_recording_swallows_transfer_failure c wormhole_code w w1 :
  os_makedirs c (RECORDING_DIRECTORY_PATH c) w = (Return tt, w1) ->
  (forall status w2,
     spawn c (receive_command c wormhole_code) w1 = (Return status, w2) ->
     status <> 0 ->
     result (receive_recording c wormhole_code w) = Return tt /\
     In (LogException (CalledProcessError status (receive_command c wormhole_code)))
        (log (final (receive_recording c wormhole_code w)))) /\
  (forall w2 e w3,
     spawn c (receive_command c wormhole_code) w1 = (Return 0, w2) ->
     received_zip_path c ∈ files w2 ->
     zip_extractall c (received_zip_path c) (RECORDING_DIRECTORY_PATH c) w2
       = (Raise e, w3) ->
     is_CalledProcessError e = false ->
     result (receive_recording c wormhole_code w) = Raise e).
Proof.
  intros Hmk. split.
  - intros status w2 Hsp Hst.
    assert (Hwp : wp (receive_recording c wormhole_code) w (fun _ => True)
      (fun o wf => o = Return tt /\
         In (LogException (CalledProcessError status (receive_command c wormhole_code)))
            (log wf))).
    { unfold receive_recording. apply wp_bind, wp_call. rewrite Hmk. cbn [fst snd].
      split; [exact I|]. apply wp_try_finally, wp_try_except, wp_bind.
      unfold subprocess_run_check. apply wp_bind, wp_call.
      fold (received_zip_path c). fold (receive_command c wormhole_code).
      rewrite Hsp. cbn [fst snd]. split; [exact I|].
      destruct (Z.eqb_spec status 0) as [?|_]; [contradiction|].
      apply wp_raise. cbn [is_CalledProcessError]. wp_prim. split; [exact I|].
      apply wp_remove_if_exists; [apply below_True|].
      intros w' _ Hin Hout. split; [reflexivity|].
      destruct (decide (received_zip_path c ∈ files w2)) as [Hd|Hd].
      - rewrite (Hin Hd). cbn [log]. rewrite !in_app_iff. cbn. auto.
      - rewrite (Hout Hd). cbn [log]. rewrite !in_app_iff. cbn. auto. }
    exact (proj2 Hwp).
  - intros w2 e w3 Hsp Hzip Hex He.
    assert (Hwp : wp (receive_recording c wormhole_code) w (fun _ => True)
      (fun o wf => o = Raise e)).
    { unfold receive_recording. apply wp_bind, wp_call. rewrite Hmk. cbn [fst snd].
      split; [exact I|]. apply wp_try_finally, wp_try_except, wp_bind.
      unfold subprocess_run_check. apply wp_bind, wp_call.
      fold (received_zip_path c). fold (receive_command c wormhole_code).
      rewrite Hsp. cbn [fst snd]. split; [exact I|].
      apply wp_ret, wp_with. wp_prim.
      rewrite bool_decide_eq_true_2 by assumption. cbn [fst snd].
      split; [exact I|]. apply wp_try_finally, wp_call. rewrite Hex. cbn [fst snd].
      split; [exact I|]. wp_prim. rewrite He.
      apply wp_remove_if_exists; [apply below_True|]. reflexivity. }
    exact (proj2 Hwp).
Qed.

(** Both halves, on a transfer that exits with status 1 and on an archive
    that cannot be read. *)
Lemma receive_recording_swallows_transfer_failure_witness :
  (result (receive_recording transfer_fails "7-guitarist-revenge" empty_world)
   = Return tt /\
   In (LogException
         (CalledProcessError 1 (receive_command transfer_fails "7-guitarist-revenge")))
      (log (final (receive_recording transfer_fails "7-guitarist-revenge" empty_world)))) /\
  result (receive_recording bad_archive "7-guitarist-revenge" empty_world)
  = Raise (BadZipFile "File is not a zip file").
Proof.
  split.
  - eapply (proj1 (receive_recording_swallows_transfer_failure
                     transfer_fails "7-guitarist-revenge" empty_world _ eq_refl));
      [reflexivity|lia].
  - eapply (proj2 (receive_recording_swallows_transfer_failure
                     bad_archive "7-guitarist-revenge" empty_world _ eq_refl));
      [reflexivity| |reflexivity|reflexivity].
    apply (bool_decide_unpack _). vm_compute. exact I.
Defined.

End ReceiveProofs.

(** ** [visualize_recording] *)

Module VisualizeProofs.
Import Py Share Examples.

#[local] Arguments join : simpl never.

(** A piece of code that leaves [os.environ] as it found it. *)
Definition env_kept {A} (m : M A) : Prop :=
  forall w, environ (final (m w)) = environ w.

Lemma env_kept_ret {A} (a : A) : env_kept (mret a).
Proof. intros w. reflexivity. Qed.

Lemma env_kept_raise {A} e : env_kept (@raise A e).
Proof. intros w. reflexivity. Qed.

Lemma env_kept_call {A} (f : effect A) : keeps_environ f -> env_kept (call f).
Proof. intros H w. unfold call. specialize (H w). now destruct (f w). Qed.

Lemma env_kept_bind {A B} (m : M A) (k : A -> M B) :
  env_kept m -> (forall a, env_kept (k a)) -> env_kept (m ≫= k).
Proof.
  intros Hm Hk w. unfold mbind, M_bind. cbn.
  destruct (result (m w)) as [a|e]; cbn; [rewrite Hk|]; apply Hm.
Qed.

Lemma env_kept_try_except {A} (body : M A) catches handler :
  env_kept body -> (forall e, env_kept (handler e)) ->
  env_kept (try_except body catches handler).
Proof.
  intros Hb Hh w. unfold try_except.
  destruct (result (body w)) as [a|e]; [apply Hb|].
  destruct (catches e); cbn; [rewrite Hh|]; apply Hb.
Qed.

Lemma env_kept_try_finally {A} (body : M A) fin :
  env_kept body -> env_kept fin -> env_kept (try_finally body fin).
Proof.
  intros Hb Hf w. unfold try_finally.
  destruct (result (fin (final (body w)))); cbn; rewrite Hf; apply Hb.
Qed.

Lemma env_kept_with {R A} (enter : M R) (exit : R -> M unit) (body : R -> M A) :
  env_kept enter -> (forall x, env_kept (exit x)) -> (forall x, env_kept (body x)) ->
  env_kept (with_ enter exit body).
Proof.
  intros He Hx Hb. unfold with_. apply env_kept_bind; [exact He|].
  intros x. now apply env_kept_try_finally.
Qed.

Lemma env_kept_logger e : env_kept (logger_emit e).
Proof. intros w. reflexivity. Qed.

Lemma bind_Return {A B} (m : M A) (k : A -> M B) w a :
  result (m w) = Return a ->
  (m ≫= k) w =
  Run (result (k a (final (m w)))) (final (k a (final (m w))))
      (trace (m w) ++ trace (k a (final (m w)))).
Proof. unfold mbind, M_bind. intros ->. reflexivity. Qed.

Lemma try_finally_raise {A B} (body : M A) e (k : B -> M unit) w :
  try_finally body (raise e ≫= k) w =
  Run (Raise e) (final (body w)) (trace (body w) ++ []).
Proof. reflexivity. Qed.

Section Visualize.
Variable c : Collaborators.
Hypothesis frames : environ_untouched c.

(** Lines 187 to 194: the [try] and [except] clauses. *)
Lemma env_kept_try_clause engine :
  env_kept
    (try_except
       (with_ (mret engine) (fun session => call (Session_close c session))
          (fun session =>
             call (os_system c "alembic upgrade head");;
             call (visualize_main c session)))
       is_Exception
       (fun exc => logger_exception exc)).
Proof.
  destruct frames as (_ & _ & _ & Hclose & Hsys & Hvis).
  apply env_kept_try_except; [|intros e; apply env_kept_logger].
  apply env_kept_with; [apply env_kept_ret|intros x; now apply env_kept_call|].
  intros x. apply env_kept_bind; [now apply env_kept_call|].
  intros _. now apply env_kept_call.
Qed.

(** What the lines before the [try] leave, when they get through. *)
Lemma setup_returns db_name w old_val engine :
  result (visualize_recording_setup c db_name w) = Return (old_val, engine) ->
  old_val = environ w !! "DB_FNAME" /\
  environ (final (visualize_recording_setup c db_name w)) !! "DB_FNAME"
  = Some db_name.
Proof.
  destruct frames as (Hpersist & Hurl & Hengine & _).
  unfold visualize_recording_setup, os_getenv, os_environ_setitem.
  unfold mbind, M_bind, call. cbn.
  pose proof (Hpersist "DB_FNAME" (Some db_name) w) as H1.
  destruct (config_persist_env c "DB_FNAME" (Some db_name) w) as [[[]|e1] w1];
    cbn in *; [|discriminate].
  destruct (has_nul db_name); cbn; [discriminate|].
  pose proof (Hurl db_name (set_environ (<["DB_FNAME":=db_name]> (environ w1)) w1)) as H2.
  destruct (config_set_db_url c db_name _) as [[[]|e2] w2]; cbn in *; [|discriminate].
  match goal with
  | |- context [create_engine c ?u ?w'] =>
      pose proof (Hengine u w') as H3; destruct (create_engine c u w') as [[eng|e3] w3]
  end; cbn in *; [|discriminate].
  intros [= <- <-]. split; [reflexivity|].
  rewrite H3, H2. apply lookup_insert_eq.
Qed.

(** C2 fails on the code when [DB_FNAME] is unset.  [old_val] is [None],
    the assignment [os.environ["DB_FNAME"] = old_val] of the [finally]
    clause raises [TypeError], and the variable keeps the value [db_name]
    that the call gave it: for every behaviour of the visualizer. *)
Theorem visualize_recording_unset_not_restored db_name w :
  environ w !! "DB_FNAME" = None ->
  (exists r, result (visualize_recording_setup c db_name w) = Return r) ->
  result (visualize_recording c db_name w)
  = Raise (TypeError "str expected, not NoneType") /\
  environ (final (visualize_recording c db_name w)) !! "DB_FNAME" = Some db_name.
Proof.
  intros Hunset [[old_val engine] Hsetup].
  destruct (setup_returns _ _ _ _ Hsetup) as [Hold Henv].
  rewrite Hunset in Hold. subst old_val.
  pose proof (env_kept_try_clause engine
                (final (visualize_recording_setup c db_name w))) as Hkept.
  unfold visualize_recording. rewrite (bind_Return _ _ _ _ Hsetup).
  cbn [result final]. unfold visualize_recording_try.
  change (os_environ_setitem "DB_FNAME" None)
    with (@raise unit (TypeError "str expected, not NoneType")).
  rewrite try_finally_raise. cbn [result final].
  split; [reflexivity|]. rewrite Hkept. exact Henv.
Qed.

Lemma restore_sets_value v w' :
  has_nul v = false ->
  environ (final ((os_environ_setitem "DB_FNAME" (Some v);;
                   call (config_persist_env c "DB_FNAME" (Some v))) w'))
    !! "DB_FNAME" = Some v.
Proof.
  intros Hv. destruct frames as (Hpersist & _).
  unfold os_environ_setitem. rewrite Hv.
  rewrite (bind_Return _ _ _ tt) by reflexivity. cbn [final].
  rewrite (env_kept_call _ (Hpersist "DB_FNAME" (Some v))).
  apply lookup_insert_eq.
Qed.

(** X1.  When [DB_FNAME] was set (to a value without a null character), it
    has its old value again when [visualize_recording] ends, whatever the
    visualizer did, a raised exception included. *)
Theorem visualize_recording_restores_set_value db_name w v :
  environ w !! "DB_FNAME" = Some v ->
  has_nul v = false ->
  (exists r, result (visualize_recording_setup c db_name w) = Return r) ->
  environ (final (visualize_recording c db_name w)) !! "DB_FNAME" = Some v.
Proof.
  intros Hset Hv [[old_val engine] Hsetup].
  destruct (setup_returns _ _ _ _ Hsetup) as [Hold _].
  rewrite Hset in Hold. subst old_val.
  unfold visualize_recording. rewrite (bind_Return _ _ _ _ Hsetup).
  cbn [final]. unfold visualize_recording_try.
  match goal with
  | |- environ (final (try_finally ?body ?fin ?w0)) !! _ = _ =>
      pose proof (restore_sets_value v (final (body w0)) Hv) as Hfin;
      unfold try_finally;
      destruct (result (fin (final (body w0)))); exact Hfin
  end.
Qed.

End Visualize.

Lemma all_fine_environ_untouched visualizer :
  environ_untouched
    (collaborators (export_to exported_db) None (Return tt) (wormhole 0) visualizer).
Proof. repeat split. Qed.

(** With [DB_FNAME] unset and a visualizer that returns. *)
Lemma visualize_recording_unset_not_restored_witness :
  result (visualize_recording all_fine "recording_1_1700000000.db" empty_world)
  = Raise (TypeError "str expected, not NoneType") /\
  environ (final (visualize_recording all_fine "recording_1_1700000000.db" empty_world))
    !! "DB_FNAME" = Some "recording_1_1700000000.db".
Proof.
  apply visualize_recording_unset_not_restored.
  - apply all_fine_environ_untouched.
  - reflexivity.
  - eexists. vm_compute. reflexivity.
Defined.

(** With [DB_FNAME] set to [openadapt.db] and a visualizer that raises. *)
Lemma visualize_recording_restores_set_value_witness :
  environ
    (final (visualize_recording visualizer_raises "recording_1_1700000000.db"
              (mkWorld ∅ {[ "DB_FNAME" := "openadapt.db" ]} [] [])))
    !! "DB_FNAME" = Some "openadapt.db".
Proof.
  apply visualize_recording_restores_set_value.
  - apply all_fine_environ_untouched.
  - vm_compute. reflexivity.
  - reflexivity.
  - eexists. vm_compute. reflexivity.
Defined.

End VisualizeProofs.

(** ** [get_completion] *)

Module LLMProofs.
Import Py LLMMixin Examples.

Lemma length_str_take n s :
  (n <= String.length s)%nat -> String.length (Re.str_take n s) = n.
Proof.
  revert s. induction n as [|n IH]; intros s H; [reflexivity|].
  destruct s as [|c s]; cbn in *; [lia|]. rewrite IH; lia.
Qed.

Lemma slice_to_positive s k :
  0 < k -> k < Z.of_nat (String.length s) ->
  slice_to s k = Re.str_take (Z.to_nat k) s.
Proof.
  intros H0 Hk. unfold slice_to.
  destruct (Z.ltb_spec k 0); [lia|]. now rewrite Z.min_l by lia.
Qed.

Section Completion.
Context {token : Type}.
Variable self : LLMReplayStrategyMixin token.

(** Lines 48 to 65: what [get_completion] does with the prompt it settled
    on. *)
Definition complete_from (prompt : string) (max_tokens : Z) : T token string :=
  emit (Debug_prompt prompt max_tokens);;
  input_tokens ← ask (Tokenize prompt) (tokenizer_call self prompt);
  let pad_token_id := tokenizer_eos_token_id self in
  let attention_mask := attention_mask input_tokens in
  let max_length := Z.of_nat (length (input_ids input_tokens)) + max_tokens in
  output_tokens ←
    ask (Generate (input_ids input_tokens) attention_mask max_length
           pad_token_id 1)
        (model_generate self (input_ids input_tokens) attention_mask
           max_length pad_token_id 1);
  let N := length (input_ids input_tokens) in
  tokens ←
    match map (skipn N) output_tokens with
    | row :: _ => mret row
    | [] => ([], Raise (IndexError "index 0 is out of bounds"))
    end;
  completion ← ask (Decode tokens true) (tokenizer_decode self tokens true);
  emit (Debug_completion completion);;
  mret completion.

Lemma tokenized_complete_from prompt max_tokens :
  tokenized (events (complete_from prompt max_tokens)) = [prompt].
Proof.
  unfold complete_from, events, mbind, T_bind, emit, ask. cbn.
  destruct (tokenizer_call self prompt) as [enc|e]; cbn; [|reflexivity].
  destruct (model_generate self _ _ _ _ _) as [rows|e]; cbn; [|reflexivity].
  destruct rows as [|row rows]; cbn; [reflexivity|].
  destruct (tokenizer_decode self _ _); reflexivity.
Qed.

Lemma T_left_id {A B} (a : A) (k : A -> T token B) : mret a ≫= k = k a.
Proof. unfold mbind, mret, T_bind, T_ret. cbn. now destruct (k a). Qed.

Lemma get_completion_unfold prompt max_tokens :
  get_completion self prompt max_tokens =
  (match model_max_length self with
   | Some m =>
       if truthy (model_max_length self) && (Z.of_nat (String.length prompt) >? m)
       then
         emit (Warning_truncating (Z.of_nat (String.length prompt)) m);;
         mret (slice_to prompt m)
       else mret prompt
   | None => mret prompt
   end) ≫= (fun prompt => complete_from prompt max_tokens).
Proof. reflexivity. Qed.

Lemma get_completion_kept prompt max_tokens :
  truthy (model_max_length self) = false \/
  (exists m, model_max_length self = Some m /\ Z.of_nat (String.length prompt) <= m) ->
  get_completion self prompt max_tokens = complete_from prompt max_tokens.
Proof.
  intros H. rewrite get_completion_unfold.
  destruct (model_max_length self) as [m|]; [|exact (T_left_id prompt (fun p => complete_from p max_tokens))].
  assert (Hc : truthy (Some m) && (Z.of_nat (String.length prompt) >? m) = false).
  { destruct H as [->|(m' & [= <-] & Hle)]; [reflexivity|].
    rewrite andb_false_iff. right. rewrite Z.gtb_ltb. apply Z.ltb_ge. lia. }
  rewrite Hc. exact (T_left_id prompt (fun p => complete_from p max_tokens)).
Qed.

Lemma get_completion_cut prompt max_tokens m :
  model_max_length self = Some m -> m <> 0 -> Z.of_nat (String.length prompt) > m ->
  tokenized (events (get_completion self prompt max_tokens))
  = [slice_to prompt m].
Proof.
  intros Hm Hne Hgt. rewrite get_completion_unfold, Hm.
  assert (Hc : truthy (Some m) && (Z.of_nat (String.length prompt) >? m) = true).
  { cbn. rewrite andb_true_iff. split; [now destruct (Z.eqb_spec m 0)|].
    rewrite Z.gtb_ltb. apply Z.ltb_lt. lia. }
  rewrite Hc.
  pose proof (tokenized_complete_from (slice_to prompt m) max_tokens) as Ht.
  unfold events, mbind, T_bind, emit, mret, T_ret in *. cbn. exact Ht.
Qed.


(** C7, as the code has it.  For a positive [model_max_length], a longer
    prompt is cut to its first [model_max_length] characters, exactly that
    many, before it is tokenized, and a prompt that is not longer is tokenized
    as it is. *)
Theorem long_prompt_is_cut prompt max_tokens m :
  model_max_length self = Some m -> 0 < m ->
  (Z.of_nat (String.length prompt) > m ->
     tokenized (events (get_completion self prompt max_tokens))
     = [Re.str_take (Z.to_nat m) prompt] /\
     Z.of_nat (String.length (Re.str_take (Z.to_nat m) prompt)) = m) /\
  (Z.of_nat (String.length prompt) <= m ->
     tokenized (events (get_completion self prompt max_tokens)) = [prompt]).
Proof.
  intros Hm Hpos. split.
  - intros Hgt. rewrite (get_completion_cut _ _ m) by (auto; lia).
    rewrite slice_to_positive by lia. split; [reflexivity|].
    rewrite length_str_take by lia. lia.
  - intros Hle. rewrite get_completion_kept by eauto. apply tokenized_complete_from.
Qed.

(** What comes before the tokenizer call is at most the warning. *)
Lemma get_completion_shape prompt max_tokens :
  exists p pre,
    get_completion self prompt max_tokens =
    ((pre ++ events (complete_from p max_tokens))%list,
     returned (complete_from p max_tokens)) /\
    tokenized pre = [] /\ decoded pre = [].
Proof.
  rewrite get_completion_unfold.
  destruct (model_max_length self) as [m|].
  - destruct (truthy (Some m) && (Z.of_nat (String.length prompt) >? m)).
    + exists (slice_to prompt m), [Warning_truncating (Z.of_nat (String.length prompt)) m].
      repeat split.
    + exists prompt, []. repeat split.
  - exists prompt, []. repeat split.
Qed.

Lemma complete_from_returns p max_tokens completion :
  returned (complete_from p max_tokens) = Return completion ->
  exists enc rows row,
    tokenizer_call self p = Return enc /\
    model_generate self (input_ids enc) (attention_mask enc)
      (Z.of_nat (length (input_ids enc)) + max_tokens)
      (tokenizer_eos_token_id self) 1 = Return rows /\
    head rows = Some row /\
    decoded (events (complete_from p max_tokens))
    = [skipn (length (input_ids enc)) row] /\
    tokenizer_decode self (skipn (length (input_ids enc)) row) true
    = Return completion.
Proof.
  unfold complete_from, returned, events, mbind, T_bind, emit, ask. cbn.
  destruct (tokenizer_call self p) as [enc|e]; cbn; [|discriminate].
  destruct (model_generate self _ _ _ _ _) as [rows|e] eqn:Eg; cbn; [|discriminate].
  destruct rows as [|row rows]; cbn; [discriminate|].
  destruct (tokenizer_decode self _ _) as [s|e] eqn:Ed; cbn; [|discriminate].
  intros [= <-]. exists enc, (row :: rows), row. repeat split; assumption.
Qed.

(** C8.  The string [get_completion] returns is the decoding of the first
    output row from position [N] on, [N] being the number of tokens of the
    tokenized prompt: [decode] is called once, on exactly these tokens, and
    when the model echoes the prompt they are the tokens it added. *)
Theorem completion_is_decoded_past_the_prompt prompt max_tokens completion :
  returned (get_completion self prompt max_tokens) = Return completion ->
  exists p enc rows row,
    tokenized (events (get_completion self prompt max_tokens)) = [p] /\
    tokenizer_call self p = Return enc /\
    model_generate self (input_ids enc) (attention_mask enc)
      (Z.of_nat (length (input_ids enc)) + max_tokens)
      (tokenizer_eos_token_id self) 1 = Return rows /\
    head rows = Some row /\
    decoded (events (get_completion self prompt max_tokens))
    = [skipn (length (input_ids enc)) row] /\
    tokenizer_decode self (skipn (length (input_ids enc)) row) true
    = Return completion /\
    (forall new, row = (input_ids enc ++ new)%list ->
       skipn (length (input_ids enc)) row = new).
Proof.
  destruct (get_completion_shape prompt max_tokens) as (p & pre & -> & Ht & Hd).
  unfold returned at 1. cbn [snd]. intros Hret.
  destruct (complete_from_returns _ _ _ Hret) as (enc & rows & row & H1 & H2 & H3 & H4 & H5).
  exists p, enc, rows, row. unfold events at 1 3. cbn [fst].
  unfold tokenized, decoded in *. rewrite !omap_app, Ht, Hd. cbn [app].
  repeat split; try assumption.
  - apply tokenized_complete_from.
  - intros new ->. apply drop_app_length.
Qed.

End Completion.
(** C7 fails as stated: with [model_max_length = 0] a prompt of five
    characters is longer than the limit and is tokenized whole, not cut to
    its first zero characters. *)
Lemma zero_max_length_keeps_prompt :
  Z.of_nat (String.length "hello") > 0 /\
  tokenized (events (get_completion (toy_mixin (Some 0)) "hello" 1)) = ["hello"] /\
  Re.str_take (Z.to_nat 0) "hello" = "".
Proof. repeat split. Qed.


(** With a limit of three characters, on a prompt of five and on one of
    three. *)
Lemma long_prompt_is_cut_witness :
  (tokenized (events (get_completion (toy_mixin (Some 3)) "hello" 1)) = ["hel"] /\
   Z.of_nat (String.length "hel") = 3) /\
  tokenized (events (get_completion (toy_mixin (Some 3)) "hey" 1)) = ["hey"].
Proof.
  split.
  - apply (proj1 (long_prompt_is_cut (toy_mixin (Some 3)) "hello" 1 3 eq_refl eq_refl)).
    reflexivity.
  - apply (proj2 (long_prompt_is_cut (toy_mixin (Some 3)) "hey" 1 3 eq_refl eq_refl)).
    discriminate.
Defined.

(** On the toy model, which echoes the prompt and adds one token. *)
Lemma completion_is_decoded_past_the_prompt_witness :
  returned (get_completion (toy_mixin (Some 3)) "hello" 1) = Return "!" /\
  exists p enc rows row,
    tokenized (events (get_completion (toy_mixin (Some 3)) "hello" 1)) = [p] /\
    tokenizer_call (toy_mixin (Some 3)) p = Return enc /\
    model_generate (toy_mixin (Some 3)) (input_ids enc) (attention_mask enc)
      (Z.of_nat (length (input_ids enc)) + 1)
      (tokenizer_eos_token_id (toy_mixin (Some 3))) 1 = Return rows /\
    head rows = Some row /\
    decoded (events (get_completion (toy_mixin (Some 3)) "hello" 1))
    = [skipn (length (input_ids enc)) row] /\
    tokenizer_decode (toy_mixin (Some 3)) (skipn (length (input_ids enc)) row) true
    = Return "!" /\
    (forall new, row = (input_ids enc ++ new)%list ->
       skipn (length (input_ids enc)) row = new).
Proof.
  split; [reflexivity|].
  apply completion_is_decoded_past_the_prompt. reflexivity.
Defined.

End LLMProofs.

(** * Further properties of the code *)

(** ** The file name codec *)

Module CodecMore.
Import Py Re Share StrFacts ReFacts IntFacts Codec.

Lemma str_of_int_neg p :
  str_of_int (Z.neg p) = String "-" (NilEmpty.string_of_uint (Pos.to_uint p)).
Proof.
  unfold str_of_int. simpl. pose proof (Unsigned.to_uint_nonnil p) as H.
  destruct (Pos.to_uint p); [congruence|reflexivity..].
Qed.

(** A run of digits ends where the first character that is no digit
    stands: two ways of reading the same string agree. *)
Lemma digit_run_unique a : forall b x y,
  all_digits a = true -> all_digits b = true -> stops x -> stops y ->
  a +:+ x = b +:+ y -> a = b /\ x = y.
Proof.
  induction a as [|c a IH]; intros b x y Ha Hb Hx Hy E.
  - destruct b as [|d b]; [auto|]. rewrite app_nil_l, app_cons in E. subst x.
    simpl in Hx, Hb. apply andb_true_iff in Hb as [Hd _]. congruence.
  - simpl in Ha. apply andb_true_iff in Ha as [Hc Ha].
    destruct b as [|d b].
    + rewrite app_nil_l, app_cons in E. subst y. simpl in Hy. congruence.
    + rewrite !app_cons in E. injection E as -> E.
      simpl in Hb. apply andb_true_iff in Hb as [_ Hb].
      destruct (IH b x y Ha Hb Hx Hy E) as [-> ->]. auto.
Qed.

Lemma first_is_digit d : all_digits d = true -> d <> "" ->
  exists c d', d = String c d' /\ is_digit c = true.
Proof.
  destruct d as [|c d']; [congruence|]. simpl. intros H _.
  apply andb_true_iff in H as [Hc _]. eauto.
Qed.

(** What [str] gives: digits, after a minus sign for a negative number. *)
Lemma str_of_int_cases n :
  (0 <= n /\ all_digits (str_of_int n) = true /\ str_of_int n <> "") \/
  (n < 0 /\ exists s, str_of_int n = String "-" s).
Proof.
  destruct (Z.lt_ge_cases n 0) as [H|H].
  - right. split; [exact H|]. destruct n as [|p|p]; try lia.
    rewrite str_of_int_neg. eauto.
  - left. destruct (str_of_int_spec n H) as (? & ? & _). auto.
Qed.

Lemma extract_rejects_unless_prefix filename :
  ~ starts_with_recording_name filename ->
  extract_timestamp_from_filename filename
  = Raise (ValueError "Invalid filename format.").
Proof.
  intros H. unfold extract_timestamp_from_filename.
  destruct (re_match pattern filename) as [m|] eqn:E; [|reflexivity].
  exfalso. apply H.
  apply re_match_pattern_inv in E as (d1 & d2 & rest & ? & ? & ? & ? & ? & _).
  exists d1, d2, rest. auto.
Qed.

(** No name [recording_<id>_<timestamp><ext>] with a negative number in it,
    or with an extension that does not start with [.db], starts with the
    pattern. *)
Lemma encoded_name_prefix id ts ext :
  starts_with_recording_name
    ("recording_" +:+ str_of_int id +:+ "_" +:+ str_of_int ts +:+ ext) ->
  stops ext ->
  0 <= id /\ 0 <= ts /\ exists rest, ext = ".db" +:+ rest.
Proof.
  intros (d1 & d2 & rest & H1 & N1 & H2 & N2 & E) Hext.
  apply (String.app_inj "recording_") in E.
  destruct (first_is_digit d1 H1 N1) as (c1 & d1' & -> & Hc1).
  destruct (first_is_digit d2 H2 N2) as (c2 & d2' & -> & Hc2).
  destruct (str_of_int_cases id) as [(Hid & Did & _)|(_ & s & Es)].
  2:{ rewrite Es, !app_cons in E. injection E as <- _. discriminate. }
  apply digit_run_unique in E as [_ E]; [|assumption..|reflexivity|reflexivity].
  apply (String.app_inj "_") in E.
  destruct (str_of_int_cases ts) as [(Hts & Dts & _)|(_ & s & Es)].
  2:{ rewrite Es, !app_cons in E. injection E as <- _. discriminate. }
  apply digit_run_unique in E as [_ E]; [|assumption..|exact Hext|reflexivity].
  eauto.
Qed.

Lemma zip_filename_rejected id ts :
  extract_timestamp_from_filename (zip_filename_of id ts)
  = Raise (ValueError "Invalid filename format.").
Proof.
  apply extract_rejects_unless_prefix. intros H.
  apply encoded_name_prefix in H as (_ & _ & rest & E); [|reflexivity].
  discriminate E.
Qed.

Lemma int_of_digits_nonneg s : forall acc n,
  0 <= acc -> int_of_digits acc s = Some n -> 0 <= n.
Proof.
  induction s as [|c s IH]; intros acc n Hacc H; simpl in H.
  - injection H as <-. exact Hacc.
  - destruct (is_digit c) eqn:Hc; [|discriminate].
    apply IH in H; [exact H|].
    unfold is_digit in Hc. apply andb_true_iff in Hc as [Hlo _].
    apply Nat.leb_le in Hlo. unfold digit_value. lia.
Qed.

Lemma int_of_str_nonneg s n : int_of_str s = Return n -> 0 <= n.
Proof.
  unfold int_of_str. destruct s as [|c s]; [discriminate|].
  destruct (int_of_digits 0 (String c s)) as [m|] eqn:E; [|discriminate].
  intros [= <-]. eapply int_of_digits_nonneg; [|exact E]. lia.
Qed.

(** X2.  A file name [recording_<d1>_<d2>.db<rest>], for any two non-empty
    runs of digits and any text after the [.db], is decoded to the number
    that [d2] writes, leading zeros included: neither the first run nor what
    follows the extension matters. *)
Theorem extract_reads_second_run (d1 d2 rest : string) :
  all_digits d1 = true -> d1 <> "" -> all_digits d2 = true -> d2 <> "" ->
  exists n,
    int_of_digits 0 d2 = Some n /\
    extract_timestamp_from_filename
      ("recording_" +:+ d1 +:+ "_" +:+ d2 +:+ ".db" +:+ rest) = Return n.
Proof.
  intros H1 N1 H2 N2. rewrite extract_recording_name by assumption.
  destruct (int_of_digits_total d2 0 H2) as [n Hn]. exists n. split; [exact Hn|].
  unfold int_of_str. rewrite Hn. destruct d2; [congruence|reflexivity].
Qed.

(** On [recording_0012_0007.db.bak]. *)
Lemma extract_reads_second_run_witness :
  exists n,
    int_of_digits 0 "0007" = Some n /\
    extract_timestamp_from_filename
      ("recording_" +:+ "0012" +:+ "_" +:+ "0007" +:+ ".db" +:+ ".bak") = Return n.
Proof. apply extract_reads_second_run; (reflexivity || discriminate). Defined.

(** X3.  A timestamp that [extract_timestamp_from_filename] returns is never
    negative. *)
Theorem extract_never_negative (filename : string) (timestamp : Z) :
  extract_timestamp_from_filename filename = Return timestamp -> 0 <= timestamp.
Proof.
  unfold extract_timestamp_from_filename.
  destruct (re_match pattern filename) as [m|]; [|discriminate].
  destruct (group m 1) as [s|]; [|discriminate]. apply int_of_str_nonneg.
Qed.

(** On [recording_1_1700000000.db]. *)
Lemma extract_never_negative_witness :
  extract_timestamp_from_filename "recording_1_1700000000.db" = Return 1700000000 /\
  0 <= 1700000000.
Proof.
  split; [reflexivity|].
  apply (extract_never_negative "recording_1_1700000000.db"). reflexivity.
Defined.

(** X4.  A negative recording id or a negative timestamp does not round
    trip: the file name written for it has a minus sign, and decoding it
    raises [ValueError]. *)
Theorem negative_numbers_do_not_round_trip (recording_id timestamp : Z) :
  recording_id < 0 \/ timestamp < 0 ->
  extract_timestamp_from_filename (db_filename_of recording_id timestamp)
  = Raise (ValueError "Invalid filename format.").
Proof.
  intros Hneg. apply extract_rejects_unless_prefix. intros H.
  apply encoded_name_prefix in H as (? & ? & _); [lia|reflexivity].
Qed.

(** With the timestamp -1 and with the id -1. *)
Lemma negative_numbers_do_not_round_trip_witness :
  extract_timestamp_from_filename (db_filename_of 1 (-1))
  = Raise (ValueError "Invalid filename format.") /\
  extract_timestamp_from_filename (db_filename_of (-1) 1700000000)
  = Raise (ValueError "Invalid filename format.").
Proof. split; apply negative_numbers_do_not_round_trip; lia. Defined.

(** X5.  The name of the archive, [recording_<id>_<timestamp>.zip], is never
    accepted by [extract_timestamp_from_filename], whatever the id and the
    timestamp: the extension has to start with [.db]. *)
Theorem archive_name_is_rejected (recording_id timestamp : Z) :
  extract_timestamp_from_filename (zip_filename_of recording_id timestamp)
  = Raise (ValueError "Invalid filename format.").
Proof. apply zip_filename_rejected. Qed.

End CodecMore.

(** ** Paths *)

Module PathFacts.
Import Py Re Share StrFacts IntFacts CodecMore.

Lemma has_slash_app a b : has_slash (a +:+ b) = has_slash a || has_slash b.
Proof.
  induction a as [|c a IH]; [reflexivity|].
  rewrite app_cons. simpl. now rewrite IH, orb_assoc.
Qed.

Lemma digits_have_no_slash s : all_digits s = true -> has_slash s = false.
Proof.
  induction s as [|c s IH]; [reflexivity|]. simpl. intros H.
  apply andb_true_iff in H as [Hc Hs]. rewrite (IH Hs), orb_false_r.
  destruct (Ascii.eqb_spec c "/") as [->|]; [discriminate|reflexivity].
Qed.

Lemma str_of_int_no_slash n : has_slash (str_of_int n) = false.
Proof.
  destruct n as [|p|p]; [reflexivity| |].
  - rewrite str_of_int_pos. apply digits_have_no_slash, all_digits_uint.
  - rewrite str_of_int_neg. simpl. apply digits_have_no_slash, all_digits_uint.
Qed.

Lemma zip_filename_no_slash id ts : has_slash (zip_filename_of id ts) = false.
Proof.
  unfold zip_filename_of. rewrite !has_slash_app, !str_of_int_no_slash. reflexivity.
Qed.

Lemma basename_no_slash b : has_slash b = false -> basename b = b.
Proof.
  destruct b as [|c b]; [reflexivity|]. simpl. intros H. now rewrite H.
Qed.

Lemma basename_after_slash a b :
  has_slash b = false -> basename (a +:+ "/" +:+ b) = b.
Proof.
  intros Hb. induction a as [|c a IH].
  - rewrite app_nil_l, app_cons, app_nil_l. simpl. now apply basename_no_slash.
  - rewrite app_cons. simpl. rewrite has_slash_app, (has_slash_app "/").
    simpl. rewrite !orb_true_r. exact IH.
Qed.

Lemma ends_with_slash_inv a :
  ends_with_slash a = true -> exists a', a = a' +:+ "/".
Proof.
  induction a as [|c a IH]; [discriminate|]. simpl.
  destruct a as [|d a].
  - intros H. apply Ascii.eqb_eq in H. subst c. now exists "".
  - intros H. destruct (IH H) as [a' ->]. now exists (String c a').
Qed.

(** [os.path.basename(os.path.join(a, b))] is [b] for a file name [b]. *)
Lemma basename_join a b :
  has_slash b = false -> b <> "" -> basename (join a b) = b.
Proof.
  intros Hb Hne. destruct b as [|x b]; [congruence|].
  assert (Hx : x <> "/"%char).
  { intros ->. simpl in Hb. discriminate. }
  assert (Hj : join a (String x b) =
               if (a =? "")%string || ends_with_slash a then a +:+ String x b
               else a +:+ "/" +:+ String x b).
  { unfold join. destruct x as [[] [] [] [] [] [] [] []]; try reflexivity.
    congruence. }
  rewrite Hj. destruct (String.eqb_spec a "") as [->|Ha]; cbn [orb].
  - rewrite app_nil_l. now apply basename_no_slash.
  - destruct (ends_with_slash a) eqn:Hs.
    + apply ends_with_slash_inv in Hs as [a' ->].
      rewrite app_assoc. now apply basename_after_slash.
    + now apply basename_after_slash.
Qed.

(** The archive never has the path of the exported file. *)
Lemma zip_path_differs c id db zip : zip_path_for c id db = Some zip -> zip <> db.
Proof.
  unfold zip_path_for.
  destruct (extract_timestamp_from_filename (basename db)) as [ts|] eqn:E;
    [|discriminate].
  intros H ->.
  assert (Hd : db = join (RECORDING_DIRECTORY_PATH c) (zip_filename_of id ts))
    by congruence.
  rewrite Hd, basename_join in E
    by (apply zip_filename_no_slash || discriminate).
  rewrite zip_filename_rejected in E. discriminate.
Qed.

End PathFacts.

(** ** [export_recording_to_folder] *)

Module ExportMore.
Import Py Share Hoare ShareFacts Examples PathFacts.

#[local] Arguments join : simpl never.
#[local] Arguments zip_filename_of : simpl never.
#[local] Arguments db_filename_of : simpl never.

Lemma wp_export_exact c id w :
  wp (export_recording_to_folder c id) w (fun _ => True)
    (fun o wf => forall zip, o = Return zip ->
       exists db w1,
         db_export_recording c id w = (Return db, w1) /\
         zip_path_for c id db = Some zip /\
         files wf =
         (files (snd (os_makedirs c (RECORDING_DIRECTORY_PATH c) w1)) ∪ {[ zip ]})
           ∖ {[ db ]}).
Proof.
  unfold export_recording_to_folder.
  apply wp_bind. wp_oracle o w1 E. split; [exact I|].
  destruct o as [db|e]; [|discriminate].
  apply wp_bind, wp_assert. destruct (negb (db =? "")%string); [|discriminate].
  apply wp_bind, wp_call. split; [exact I|].
  set (w2 := snd (os_makedirs c (RECORDING_DIRECTORY_PATH c) w1)).
  destruct (fst (os_makedirs c (RECORDING_DIRECTORY_PATH c) w1)) as [[]|e];
    [|discriminate].
  apply wp_bind, wp_lift.
  destruct (extract_timestamp_from_filename (basename db)) as [ts|e] eqn:Ets;
    [|discriminate].
  set (zip := join (RECORDING_DIRECTORY_PATH c) (zip_filename_of id ts)) in *.
  apply wp_bind, wp_with. wp_prim.
  destruct (zip_open_fault c zip w2); cbn [fst snd]; (split; [exact I|]);
    [discriminate|].
  apply wp_try_finally. wp_prim.
  destruct (zip_write_fault c db (db_filename_of id ts) _); cbn [fst snd files set_files].
  { split; [exact I|]. wp_prim. discriminate. }
  case_bool_decide as Hdb; cbn [fst snd files set_files]; (split; [exact I|]);
    wp_prim; [|discriminate].
  apply wp_bind. wp_prim. split; [exact I|].
  apply wp_bind. wp_prim. cbn [files].
  rewrite bool_decide_eq_true_2 by assumption. cbn [fst snd files set_files].
  split; [exact I|].
  apply wp_bind. wp_prim. split; [exact I|].
  apply wp_ret. intros zip' [= <-]. exists db, w1.
  split; [reflexivity|]. split; [unfold zip_path_for; now rewrite Ets|].
  reflexivity.
Qed.

(** X6.  When [export_recording_to_folder] returns, what it returns is the
    path [recording_<recording_id>_<timestamp>.zip] in the recordings
    directory, with the timestamp decoded from the name of the exported file;
    the archive exists on disk and the exported database file does not. *)
Theorem export_swaps_database_for_archive c recording_id w zip_path :
  result (export_recording_to_folder c recording_id w) = Return zip_path ->
  exists recording_db_path timestamp,
    fst (db_export_recording c recording_id w) = Return recording_db_path /\
    extract_timestamp_from_filename (basename recording_db_path)
    = Return timestamp /\
    zip_path = join (RECORDING_DIRECTORY_PATH c)
                 (zip_filename_of recording_id timestamp) /\
    zip_path ∈ files (final (export_recording_to_folder c recording_id w)) /\
    recording_db_path ∉ files (final (export_recording_to_folder c recording_id w)).
Proof.
  intros Hret.
  destruct (proj2 (wp_export_exact c recording_id w) zip_path Hret)
    as (db & w1 & E & Hz & Hfiles).
  pose proof (zip_path_differs _ _ _ _ Hz) as Hne.
  unfold zip_path_for in Hz.
  destruct (extract_timestamp_from_filename (basename db)) as [ts|] eqn:Ets;
    [|discriminate].
  exists db, ts. rewrite E, Hfiles. cbn [fst].
  repeat split; try congruence; set_solver.
Qed.

(** On the export of recording 1, at timestamp 1700000000. *)
Lemma export_swaps_database_for_archive_witness :
  exists recording_db_path timestamp,
    fst (db_export_recording all_fine 1 empty_world) = Return recording_db_path /\
    extract_timestamp_from_filename (basename recording_db_path)
    = Return timestamp /\
    exported_zip = join (RECORDING_DIRECTORY_PATH all_fine)
                     (zip_filename_of 1 timestamp) /\
    exported_zip ∈ files (final (export_recording_to_folder all_fine 1 empty_world)) /\
    recording_db_path ∉ files (final (export_recording_to_folder all_fine 1 empty_world)).
Proof. apply export_swaps_database_for_archive. vm_compute. reflexivity. Defined.

(** X7.  [export_recording_to_folder] fails before it archives anything
    when the database export gives an empty path ([AssertionError]) or a file
    whose name cannot be decoded (the decoder's exception): no archive is
    created and the exported file is not deleted, the world stays as the
    export, or the directory creation, left it. *)
Theorem export_fails_before_archiving c recording_id w recording_db_path w1 :
  db_export_recording c recording_id w = (Return recording_db_path, w1) ->
  (recording_db_path = "" ->
     result (export_recording_to_folder c recording_id w)
     = Raise (AssertionError "") /\
     final (export_recording_to_folder c recording_id w) = w1) /\
  (recording_db_path <> "" ->
     forall w2 e,
       os_makedirs c (RECORDING_DIRECTORY_PATH c) w1 = (Return tt, w2) ->
       extract_timestamp_from_filename (basename recording_db_path) = Raise e ->
       result (export_recording_to_folder c recording_id w) = Raise e /\
       final (export_recording_to_folder c recording_id w) = w2).
Proof.
  intros E. split.
  - intros ->.
    assert (Hwp : wp (export_recording_to_folder c recording_id) w (fun _ => True)
              (fun o wf => o = Raise (AssertionError "") /\ wf = w1)).
    { unfold export_recording_to_folder. apply wp_bind, wp_call. rewrite E.
      cbn [fst snd]. split; [exact I|]. apply wp_bind, wp_assert. cbn. auto. }
    exact (proj2 Hwp).
  - intros Hne w2 e Hmk Hex.
    assert (Hwp : wp (export_recording_to_folder c recording_id) w (fun _ => True)
              (fun o wf => o = Raise e /\ wf = w2)).
    { unfold export_recording_to_folder. apply wp_bind, wp_call. rewrite E.
      cbn [fst snd]. split; [exact I|]. apply wp_bind, wp_assert.
      apply String.eqb_neq in Hne. rewrite Hne. cbn [negb].
      apply wp_bind, wp_call. rewrite Hmk. cbn [fst snd]. split; [exact I|].
      apply wp_bind, wp_lift. rewrite Hex. auto. }
    exact (proj2 Hwp).
Qed.

(** On an export without a path and on an export named [export_1.db]. *)
Lemma export_fails_before_archiving_witness :
  (result (export_recording_to_folder no_export_path 1 empty_world)
   = Raise (AssertionError "") /\
   final (export_recording_to_folder no_export_path 1 empty_world) = empty_world) /\
  (result (export_recording_to_folder odd_export_name 1 empty_world)
   = Raise (ValueError "Invalid filename format.") /\
   final (export_recording_to_folder odd_export_name 1 empty_world)
   = snd (export_to "recordings/export_1.db" 1 empty_world)).
Proof.
  split.
  - apply (proj1 (export_fails_before_archiving no_export_path 1 empty_world
                    "" _ eq_refl)).
    reflexivity.
  - apply (proj2 (export_fails_before_archiving odd_export_name 1 empty_world
                    "recordings/export_1.db" _ eq_refl));
      [discriminate|reflexivity|reflexivity].
Defined.

End ExportMore.

(** ** [send_file] and [send_recording] *)

Module SendMore.
Import Py Share Hoare ShareFacts Examples.
Import SendProofs ReceiveProofs ExportMore.

#[local] Arguments join : simpl never.

(** The message of the exception [send_file] raises. *)
Definition send_error : exn :=
  Exception "Error occurred while running 'wormhole send'".


(** How the [try] statement of [send_recording] ends, by what the child
    process did. *)
Definition after_transfer (o : outcome Z) : outcome unit :=
  match o with
  | Return _ => Return tt
  | Raise e => if is_Exception e then Return tt else Raise e
  end.

Lemma wp_clean_log (zip_path text : string) w (P : list log_entry -> Prop)
    (Q : outcome unit -> World -> Prop) :
  (forall l, P l -> P (l ++ [LogInfo text zip_path])%list) ->
  P (log w) ->
  (forall w', P (log w') -> Q (Return tt) w') ->
  wp (present ← os_path_exists zip_path;
      if (present : bool) then
        os_remove zip_path;; logger_info text zip_path
      else mret tt) w (fun _ => True) Q.
Proof.
  intros HP H0 HQ. apply wp_remove_if_exists; [apply below_True|].
  intros w' _ Hin Hout. apply HQ.
  destruct (decide (zip_path ∈ files w)) as [Hd|Hd].
  - rewrite (Hin Hd). now apply HP.
  - now rewrite (Hout Hd).
Qed.

Lemma wp_send_try c zip_file_path w :
  wp (try_finally
        (try_except (send_file c zip_file_path) is_Exception
           (fun exc => logger_exception exc))
        (present ← os_path_exists zip_file_path;
         if (present : bool) then
           os_remove zip_file_path;;
           logger_info "deleted zip_file_path" zip_file_path
         else mret tt))
     w (fun _ => True)
     (fun o wf =>
        o = after_transfer (fst (spawn c ["wormhole"; "send"; zip_file_path] w)) /\
        (forall status,
           fst (spawn c ["wormhole"; "send"; zip_file_path] w) = Return status ->
           status <> 0 -> In (LogException send_error) (log wf))).
Proof.
  apply wp_try_finally, wp_try_except. unfold send_file.
  apply wp_try_except. unfold subprocess_run_check. apply wp_bind, wp_call.
  split; [exact I|].
  destruct (spawn c ["wormhole"; "send"; zip_file_path] w) as [[status|e] w'];
    cbn [fst snd after_transfer].
  - destruct (Z.eqb_spec status 0) as [->|Hst].
    + apply wp_ret, (wp_clean_log _ _ _ (fun _ => True)); auto.
      intros w2 _. split; [reflexivity|]. intros status [= <-]. congruence.
    + apply wp_raise. cbn [is_CalledProcessError]. apply wp_raise.
      cbn [is_Exception]. wp_prim. split; [exact I|].
      apply (wp_clean_log _ _ _ (fun l => In (LogException send_error) l)).
      * intros l Hl. apply in_or_app. now left.
      * cbn [log]. apply in_or_app. right. now left.
      * intros w2 Hlog. auto.
  - assert (Hend : forall w0 (o : outcome unit),
      wp (present ← os_path_exists zip_file_path;
          if (present : bool) then
            os_remove zip_file_path;;
            logger_info "deleted zip_file_path" zip_file_path
          else mret tt) w0 (fun _ => True)
        (fun (o' : outcome unit) w2 =>
           match o' with
           | Return _ =>
               o = o /\
               (forall status : Z, Raise e = Return status -> status <> 0 ->
                  In (LogException send_error) (log w2))
           | Raise e0 =>
               Raise e0 = o /\
               (forall status : Z, Raise e = Return status -> status <> 0 ->
                  In (LogException send_error) (log w2))
           end)).
    { intros w0 o. apply (wp_clean_log _ _ _ (fun _ => True)); auto.
      intros w2 _. split; [reflexivity|]. intros status; discriminate. }
    destruct (is_CalledProcessError e) eqn:Hcpe.
    + apply wp_raise. cbn [is_Exception]. wp_prim. split; [exact I|].
      assert (He : is_Exception e = true) by (destruct e; try discriminate; reflexivity).
      rewrite He. apply Hend.
    + destruct (is_Exception e) eqn:He.
      * wp_prim. split; [exact I|]. apply Hend.
      * apply Hend.
Qed.

(** The run of [send_recording] after a successful export is the run of its
    [try] statement, from the world that [print] leaves. *)
Lemma wp_send_after_export c id w zip (Q : outcome unit -> World -> Prop) :
  result (export_recording_to_folder c id w) = Return zip ->
  (forall w0 o wf,
     o = after_transfer (fst (spawn c ["wormhole"; "send"; zip] w0)) ->
     (forall status,
        fst (spawn c ["wormhole"; "send"; zip] w0) = Return status ->
        status <> 0 -> In (LogException send_error) (log wf)) ->
     Q o wf) ->
  Q (result (send_recording c id w)) (final (send_recording c id w)).
Proof.
  intros Hret HQ.
  destruct (proj2 (wp_export_exact c id w) zip Hret) as (db & w1 & _ & Hz & _).
  pose proof (zip_path_for_nonempty _ _ _ _ Hz) as Hne.
  apply String.eqb_neq in Hne.
  assert (Hwp : wp (send_recording c id) w (fun _ => True) Q).
  { unfold send_recording. apply wp_bind_run; [apply wp_any|]. rewrite Hret.
    apply wp_bind. wp_prim. split; [exact I|].
    apply wp_bind, wp_assert. rewrite Hne. cbn [negb].
    eapply wp_conseq; [apply wp_send_try|].
    intros o wf [Ho Hlog]. eapply HQ; eassumption. }
  exact (proj2 Hwp).
Qed.

(** X9.  Once the export has given its archive, [send_recording] returns
    normally whenever the child process returns (whatever its exit status) or
    fails with an exception of class [Exception], a transfer program that is
    not installed included: no failure of the transfer reaches the caller. *)
Theorem send_recording_swallows_transfer_errors c recording_id w zip_path :
  result (export_recording_to_folder c recording_id w) = Return zip_path ->
  (forall w0 e,
     fst (spawn c ["wormhole"; "send"; zip_path] w0) = Raise e ->
     is_Exception e = true) ->
  result (send_recording c recording_id w) = Return tt.
Proof.
  intros Hret Hexn. apply (wp_send_after_export c recording_id w zip_path
    (fun o _ => o = Return tt) Hret).
  intros w0 o wf -> _. specialize (Hexn w0).
  destruct (fst (spawn c ["wormhole"; "send"; zip_path] w0)) as [st|e];
    [reflexivity|]. cbn. now rewrite (Hexn e eq_refl).
Qed.


(** X11.  An exception of the transfer that is not an [Exception]
    ([KeyboardInterrupt], say) is not caught by [send_recording]: it reaches
    the caller after the [finally] clause has run. *)
Theorem send_recording_propagates_interrupt c recording_id w zip_path e :
  result (export_recording_to_folder c recording_id w) = Return zip_path ->
  (forall w0, fst (spawn c ["wormhole"; "send"; zip_path] w0) = Raise e) ->
  is_Exception e = false ->
  result (send_recording c recording_id w) = Raise e.
Proof.
  intros Hret Hraise He. apply (wp_send_after_export c recording_id w zip_path
    (fun o _ => o = Raise e) Hret).
  intros w0 o wf -> _. rewrite Hraise. cbn. now rewrite He.
Qed.


Lemma send_recording_swallows_transfer_errors_witness :
  result (send_recording tool_missing 1 empty_world) = Return tt.
Proof.
  apply (send_recording_swallows_transfer_errors tool_missing 1 empty_world
           exported_zip).
  - vm_compute. reflexivity.
  - intros w0 e [= <-]. reflexivity.
Defined.


Lemma send_recording_propagates_interrupt_witness :
  result (send_recording transfer_interrupted 1 empty_world)
  = Raise KeyboardInterrupt.
Proof.
  apply (send_recording_propagates_interrupt transfer_interrupted 1 empty_world
           exported_zip).
  - vm_compute. reflexivity.
  - intros w0. reflexivity.
  - reflexivity.
Defined.

End SendMore.

(** ** [receive_recording] *)

Module ReceiveMore.
Import Py Share Hoare ShareFacts Examples.
Import ReceiveProofs.

#[local] Arguments join : simpl never.

(** The [finally] clause, to the file: only [zip_path] goes. *)
Lemma wp_remove_exact (zip_path text : string) w
    (Q : outcome unit -> World -> Prop) :
  (forall w', files w' = files w ∖ {[ zip_path ]} -> Q (Return tt) w') ->
  wp (present ← os_path_exists zip_path;
      if (present : bool) then
        os_remove zip_path;; logger_info text zip_path
      else mret tt) w (fun _ => True) Q.
Proof.
  intros HQ. apply wp_bind. wp_prim. split; [exact I|].
  case_bool_decide as Hin.
  - apply wp_bind. wp_prim. rewrite bool_decide_eq_true_2 by assumption.
    cbn [fst snd]. split; [exact I|]. wp_prim. split; [exact I|].
    apply HQ. reflexivity.
  - apply wp_ret, HQ. apply set_eq. intros p. set_solver.
Qed.

(** X12.  [receive_recording] catches [CalledProcessError] only.  When the
    transfer program cannot be started, the exception of the launch reaches
    the caller; when it exits with status 0 without having written
    [recording.zip], opening the archive fails and that error reaches the
    caller. *)
Theorem receive_recording_propagates_other_failures c wormhole_code w w1 :
  os_makedirs c (RECORDING_DIRECTORY_PATH c) w = (Return tt, w1) ->
  (forall e w2,
     spawn c (receive_command c wormhole_code) w1 = (Raise e, w2) ->
     is_CalledProcessError e = false ->
     result (receive_recording c wormhole_code w) = Raise e) /\
  (forall w2,
     spawn c (receive_command c wormhole_code) w1 = (Return 0, w2) ->
     received_zip_path c ∉ files w2 ->
     result (receive_recording c wormhole_code w)
     = Raise (OSError "No such file or directory")).
Proof.
  intros Hmk. split.
  - intros e w2 Hsp He.
    assert (Hwp : wp (receive_recording c wormhole_code) w (fun _ => True)
      (fun o wf => o = Raise e)).
    { unfold receive_recording. apply wp_bind, wp_call. rewrite Hmk. cbn [fst snd].
      split; [exact I|]. apply wp_try_finally, wp_try_except, wp_bind.
      unfold subprocess_run_check. apply wp_bind, wp_call.
      fold (received_zip_path c). fold (receive_command c wormhole_code).
      rewrite Hsp. cbn [fst snd]. split; [exact I|]. rewrite He.
      apply wp_remove_exact. reflexivity. }
    exact (proj2 Hwp).
  - intros w2 Hsp Hzip.
    assert (Hwp : wp (receive_recording c wormhole_code) w (fun _ => True)
      (fun o wf => o = Raise (OSError "No such file or directory"))).
    { unfold receive_recording. apply wp_bind, wp_call. rewrite Hmk. cbn [fst snd].
      split; [exact I|]. apply wp_try_finally, wp_try_except, wp_bind.
      unfold subprocess_run_check. apply wp_bind, wp_call.
      fold (received_zip_path c). fold (receive_command c wormhole_code).
      rewrite Hsp. cbn [fst snd]. split; [exact I|].
      apply wp_ret, wp_with. wp_prim.
      rewrite bool_decide_eq_false_2 by assumption. cbn [fst snd].
      split; [exact I|]. cbn [is_CalledProcessError].
      apply wp_remove_exact. reflexivity. }
    exact (proj2 Hwp).
Qed.

(** X13.  When the transfer and the extraction succeed, [receive_recording]
    returns, and the files it leaves are the files the extraction left, less
    [recording.zip]: the received archive is deleted and nothing else is. *)
Theorem receive_recording_keeps_extracted_files c wormhole_code w w1 w2 w3 :
  os_makedirs c (RECORDING_DIRECTORY_PATH c) w = (Return tt, w1) ->
  spawn c (receive_command c wormhole_code) w1 = (Return 0, w2) ->
  received_zip_path c ∈ files w2 ->
  zip_extractall c (received_zip_path c) (RECORDING_DIRECTORY_PATH c) w2
  = (Return tt, w3) ->
  result (receive_recording c wormhole_code w) = Return tt /\
  files (final (receive_recording c wormhole_code w))
  = files w3 ∖ {[ received_zip_path c ]}.
Proof.
  intros Hmk Hsp Hzip Hex.
  assert (Hwp : wp (receive_recording c wormhole_code) w (fun _ => True)
    (fun o wf => o = Return tt /\ files wf = files w3 ∖ {[ received_zip_path c ]})).
  { unfold receive_recording. apply wp_bind, wp_call. rewrite Hmk. cbn [fst snd].
    split; [exact I|]. apply wp_try_finally, wp_try_except, wp_bind.
    unfold subprocess_run_check. apply wp_bind, wp_call.
    fold (received_zip_path c). fold (receive_command c wormhole_code).
    rewrite Hsp. cbn [fst snd]. split; [exact I|].
    apply wp_ret, wp_with. wp_prim.
    rewrite bool_decide_eq_true_2 by assumption. cbn [fst snd].
    split; [exact I|]. apply wp_try_finally, wp_call. rewrite Hex. cbn [fst snd].
    split; [exact I|]. wp_prim.
    apply wp_remove_exact. auto. }
  exact (proj2 Hwp).
Qed.

Lemma receive_recording_propagates_other_failures_witness :
  result (receive_recording tool_missing "7-guitarist-revenge" empty_world)
  = Raise (OSError "No such file or directory: 'wormhole'") /\
  result (receive_recording nothing_received "7-guitarist-revenge" empty_world)
  = Raise (OSError "No such file or directory").
Proof.
  split.
  - eapply (proj1 (receive_recording_propagates_other_failures
                     tool_missing "7-guitarist-revenge" empty_world _ eq_refl));
      reflexivity.
  - eapply (proj2 (receive_recording_propagates_other_failures
                     nothing_received "7-guitarist-revenge" empty_world _ eq_refl));
      [reflexivity|].
    apply (bool_decide_unpack _). vm_compute. exact I.
Defined.

Lemma receive_recording_keeps_extracted_files_witness :
  result (receive_recording unpacks_database "7-guitarist-revenge" empty_world)
  = Return tt /\
  files (final (receive_recording unpacks_database "7-guitarist-revenge" empty_world))
  = files (snd (zip_extractall unpacks_database
                  (received_zip_path unpacks_database) "recordings"
                  (snd (wormhole 0
                          (receive_command unpacks_database "7-guitarist-revenge")
                          empty_world))))
    ∖ {[ received_zip_path unpacks_database ]}.
Proof.
  eapply receive_recording_keeps_extracted_files;
    first [ reflexivity | apply (bool_decide_unpack _); vm_compute; exact I ].
Defined.

End ReceiveMore.

(** ** [visualize_recording] *)

Module VisualizeMore.
Import Py Share Hoare ShareFacts Examples.
Import VisualizeProofs.

#[local] Arguments join : simpl never.

(** [old_val] is what [DB_FNAME] held when [visualize_recording] was
    called. *)
Lemma setup_reads_old_value c db_name w old_val engine :
  result (visualize_recording_setup c db_name w) = Return (old_val, engine) ->
  old_val = environ w !! "DB_FNAME".
Proof.
  assert (Hwp : wp (visualize_recording_setup c db_name) w (fun _ => True)
    (fun o _ => forall ov eng, o = Return (ov, eng) -> ov = environ w !! "DB_FNAME")).
  { unfold visualize_recording_setup. apply wp_bind. wp_prim. split; [exact I|].
    apply wp_bind. wp_oracle o1 w1 E1. split; [exact I|].
    destruct o1 as [[]|e1]; [|discriminate].
    apply wp_bind. unfold os_environ_setitem.
    destruct (has_nul db_name); [apply wp_raise; discriminate|].
    apply wp_call. cbn [fst snd]. split; [exact I|].
    apply wp_bind. wp_oracle o2 w2 E2. split; [exact I|].
    destruct o2 as [[]|e2]; [|discriminate].
    apply wp_bind. wp_oracle o3 w3 E3. split; [exact I|].
    destruct o3 as [eng|e3]; [|discriminate].
    apply wp_ret. now intros ov eng' [= <- _]. }
  intros H. exact (proj2 Hwp _ _ H).
Qed.

Section Swallow.
Variable c : Collaborators.
Variable v : string.
Hypothesis v_ok : has_nul v = false.
Hypothesis session_closes : forall session w0,
  fst (Session_close c session w0) = Return tt.
Hypothesis persist_returns : forall w0,
  fst (config_persist_env c "DB_FNAME" (Some v) w0) = Return tt.
Hypothesis upgrade_exceptions : forall w0 e,
  fst (os_system c "alembic upgrade head" w0) = Raise e -> is_Exception e = true.
Hypothesis visualizer_exceptions : forall session w0 e,
  fst (visualize_main c session w0) = Raise e -> is_Exception e = true.

Lemma wp_restore w0 (Q : outcome unit -> World -> Prop) :
  (forall w', Q (Return tt) w') ->
  wp (os_environ_setitem "DB_FNAME" (Some v);;
      call (config_persist_env c "DB_FNAME" (Some v))) w0 (fun _ => True) Q.
Proof.
  intros HQ. apply wp_bind. unfold os_environ_setitem. rewrite v_ok.
  apply wp_call. cbn [fst snd]. split; [exact I|].
  apply wp_call. rewrite persist_returns. split; [exact I|]. apply HQ.
Qed.

Lemma wp_close session w0 (Q : outcome unit -> World -> Prop) :
  (forall w', Q (Return tt) w') ->
  wp (call (Session_close c session)) w0 (fun _ => True) Q.
Proof.
  intros HQ. apply wp_call. rewrite session_closes. split; [exact I|]. apply HQ.
Qed.

Lemma wp_try_returns engine w0 :
  wp (visualize_recording_try c (Some v) engine) w0 (fun _ => True)
     (fun o _ => o = Return tt).
Proof.
  unfold visualize_recording_try.
  apply wp_try_finally, wp_try_except, wp_with, wp_ret, wp_try_finally, wp_bind.
  apply wp_call. split; [exact I|].
  destruct (os_system c "alembic upgrade head" w0) as [[st|e] w1] eqn:E1;
    cbn [fst snd].
  - apply wp_call. split; [exact I|].
    destruct (visualize_main c engine w1) as [[[]|e] w2] eqn:E2; cbn [fst snd].
    + apply wp_close. intros w3. apply wp_restore. reflexivity.
    + apply wp_close. intros w3.
      rewrite (visualizer_exceptions engine w1 e) by now rewrite E2.
      wp_prim. split; [exact I|]. apply wp_restore. reflexivity.
  - apply wp_close. intros w3.
    rewrite (upgrade_exceptions w0 e) by now rewrite E1.
    wp_prim. split; [exact I|]. apply wp_restore. reflexivity.
Qed.

End Swallow.

(** X14.  When [DB_FNAME] was set and the collaborators around the
    visualization return, [visualize_recording] returns normally whatever the
    migration command and the visualizer raise, as long as it is an
    [Exception]: the error is logged and does not reach the caller. *)
Theorem visualize_recording_swallows_errors c db_name w v :
  environ w !! "DB_FNAME" = Some v ->
  has_nul v = false ->
  (exists r, result (visualize_recording_setup c db_name w) = Return r) ->
  (forall session w0, fst (Session_close c session w0) = Return tt) ->
  (forall w0, fst (config_persist_env c "DB_FNAME" (Some v) w0) = Return tt) ->
  (forall w0 e,
     fst (os_system c "alembic upgrade head" w0) = Raise e ->
     is_Exception e = true) ->
  (forall session w0 e,
     fst (visualize_main c session w0) = Raise e -> is_Exception e = true) ->
  result (visualize_recording c db_name w) = Return tt.
Proof.
  intros Hset Hv [[old_val engine] Hsetup] Hclose Hpersist Hup Hvis.
  pose proof (setup_reads_old_value _ _ _ _ _ Hsetup) as Hold.
  rewrite Hset in Hold. subst old_val.
  unfold visualize_recording. rewrite (bind_Return _ _ _ _ Hsetup).
  cbn [result].
  exact (proj2 (wp_try_returns c v Hv Hclose Hpersist Hup Hvis engine _)).
Qed.

Lemma visualize_recording_swallows_errors_witness :
  result (visualize_recording visualizer_raises "recording_1_1700000000.db"
            (mkWorld ∅ {[ "DB_FNAME" := "openadapt.db" ]} [] []))
  = Return tt.
Proof.
  apply (visualize_recording_swallows_errors visualizer_raises _ _ "openadapt.db").
  - apply lookup_singleton_eq.
  - reflexivity.
  - eexists. vm_compute. reflexivity.
  - reflexivity.
  - reflexivity.
  - discriminate.
  - intros session w0 e [= <-]. reflexivity.
Defined.

End VisualizeMore.

(** ** [get_completion] *)

Module LLMMore.
Import Py LLMMixin Examples LLMProofs.

Lemma str_take_all n s :
  (String.length s <= n)%nat -> Re.str_take n s = s.
Proof.
  revert s. induction n as [|n IH]; intros [|c s] H; cbn in *;
    try reflexivity; [lia|]. rewrite IH; [reflexivity|lia].
Qed.

Lemma length_str_take_le n s : (String.length (Re.str_take n s) <= n)%nat.
Proof.
  revert s. induction n as [|n IH]; intros [|c s]; cbn; try lia.
  specialize (IH s). lia.
Qed.

(** The [Generate] calls among the recorded ones. *)
Definition generated {token} (evs : list (event token)) : list (list token) :=
  omap (fun e => match e with Generate ids _ _ _ _ => Some ids | _ => None end) evs.

Section CompletionMore.
Context {token : Type}.
Variable self : LLMReplayStrategyMixin token.

Lemma get_completion_cut_eq prompt max_tokens m :
  model_max_length self = Some m -> m <> 0 -> Z.of_nat (String.length prompt) > m ->
  get_completion self prompt max_tokens =
  (Warning_truncating (Z.of_nat (String.length prompt)) m
     :: events (complete_from self (slice_to prompt m) max_tokens),
   returned (complete_from self (slice_to prompt m) max_tokens)).
Proof.
  intros Hm Hne Hgt. rewrite get_completion_unfold, Hm.
  assert (Hc : truthy (Some m) && (Z.of_nat (String.length prompt) >? m) = true).
  { cbn. rewrite andb_true_iff. split; [now destruct (Z.eqb_spec m 0)|].
    rewrite Z.gtb_ltb. apply Z.ltb_lt. lia. }
  rewrite Hc. reflexivity.
Qed.

(** X15.  For a positive [model_max_length], the text of a prompt past the
    limit has no influence: [get_completion] makes the calls, and gives the
    result, that it makes and gives on the first [model_max_length]
    characters alone, after one warning. *)
Theorem text_past_the_limit_is_ignored prompt max_tokens m :
  model_max_length self = Some m -> 0 < m ->
  Z.of_nat (String.length prompt) > m ->
  events (get_completion self prompt max_tokens)
  = Warning_truncating (Z.of_nat (String.length prompt)) m
      :: events (get_completion self (Re.str_take (Z.to_nat m) prompt) max_tokens) /\
  returned (get_completion self prompt max_tokens)
  = returned (get_completion self (Re.str_take (Z.to_nat m) prompt) max_tokens).
Proof.
  intros Hm Hpos Hgt.
  rewrite (get_completion_cut_eq prompt max_tokens m) by (auto; lia).
  rewrite slice_to_positive by lia.
  rewrite (get_completion_kept self (Re.str_take (Z.to_nat m) prompt)).
  - split; reflexivity.
  - right. exists m. split; [assumption|]. rewrite length_str_take by lia. lia.
Qed.

(** X16.  A negative [model_max_length] is truthy and smaller than every
    length, so every prompt is cut, by [prompt[:model_max_length]]: the
    tokenizer gets the prompt without its last [-model_max_length]
    characters, the empty string when it has no more than that. *)
Theorem negative_limit_cuts_from_the_end prompt max_tokens m :
  model_max_length self = Some m -> m < 0 ->
  tokenized (events (get_completion self prompt max_tokens))
  = [Re.str_take (String.length prompt - Z.to_nat (- m)) prompt].
Proof.
  intros Hm Hneg. rewrite (get_completion_cut self _ _ m) by (auto; lia).
  unfold slice_to. destruct (Z.ltb_spec m 0); [|lia].
  do 2 f_equal. lia.
Qed.

Lemma no_warning_later p max_tokens l m :
  ~ In (Warning_truncating l m) (events (complete_from self p max_tokens)).
Proof.
  unfold complete_from, events, mbind, T_bind, emit, ask. cbn.
  destruct (tokenizer_call self p) as [enc|e]; cbn; [|intuition discriminate].
  destruct (model_generate self _ _ _ _ _) as [rows|e]; cbn;
    [|intuition discriminate].
  destruct rows as [|row rows]; cbn; [intuition discriminate|].
  destruct (tokenizer_decode self _ _); cbn; intuition discriminate.
Qed.

(** X17.  [get_completion] logs the truncation warning exactly when it cuts:
    when [model_max_length] is a non-zero number smaller than the length of
    the prompt; the warning then shows that length and the limit. *)
Theorem warning_exactly_when_cut prompt max_tokens l m :
  In (Warning_truncating l m) (events (get_completion self prompt max_tokens)) <->
  model_max_length self = Some m /\ m <> 0 /\
  l = Z.of_nat (String.length prompt) /\ Z.of_nat (String.length prompt) > m.
Proof.
  split.
  - destruct (model_max_length self) as [m'|] eqn:Hm.
    + destruct (Z.eq_dec m' 0) as [->|Hne].
      * rewrite get_completion_kept by (left; now rewrite Hm).
        intros H. now apply no_warning_later in H.
      * destruct (Z_gt_le_dec (Z.of_nat (String.length prompt)) m') as [Hgt|Hle].
        -- rewrite (get_completion_cut_eq prompt max_tokens m') by assumption.
           unfold events at 1. cbn [fst]. intros [[= <- <-]|H]; [auto|].
           now apply no_warning_later in H.
        -- rewrite get_completion_kept by (right; eauto).
           intros H. now apply no_warning_later in H.
    + rewrite get_completion_kept by (left; now rewrite Hm).
      intros H. now apply no_warning_later in H.
  - intros (Hm & Hne & -> & Hgt).
    rewrite (get_completion_cut_eq prompt max_tokens m) by assumption.
    now left.
Qed.

Lemma complete_from_fails p max_tokens :
  (forall e, tokenizer_call self p = Raise e ->
     returned (complete_from self p max_tokens) = Raise e /\
     generated (events (complete_from self p max_tokens)) = [] /\
     decoded (events (complete_from self p max_tokens)) = []) /\
  (forall enc e,
     tokenizer_call self p = Return enc ->
     model_generate self (input_ids enc) (attention_mask enc)
       (Z.of_nat (length (input_ids enc)) + max_tokens)
       (tokenizer_eos_token_id self) 1 = Raise e ->
     returned (complete_from self p max_tokens) = Raise e /\
     decoded (events (complete_from self p max_tokens)) = []).
Proof.
  unfold complete_from, returned, events, mbind, T_bind, emit, ask. cbn. split.
  - intros e ->. cbn. repeat split.
  - intros enc e -> Hg. cbn. rewrite Hg. cbn. repeat split.
Qed.

Lemma tokenized_warning l m (evs : list (event token)) :
  tokenized (Warning_truncating l m :: evs) = tokenized evs.
Proof. reflexivity. Qed.

Lemma generated_warning l m (evs : list (event token)) :
  generated (Warning_truncating l m :: evs) = generated evs.
Proof. reflexivity. Qed.

Lemma decoded_warning l m (evs : list (event token)) :
  decoded (Warning_truncating l m :: evs) = decoded evs.
Proof. reflexivity. Qed.

Lemma get_completion_prefix prompt max_tokens :
  exists p pre,
    get_completion self prompt max_tokens =
    ((pre ++ events (complete_from self p max_tokens))%list,
     returned (complete_from self p max_tokens)) /\
    (pre = [] \/ exists l m, pre = [Warning_truncating l m]).
Proof.
  rewrite get_completion_unfold.
  destruct (model_max_length self) as [m|].
  - destruct (truthy (Some m) && (Z.of_nat (String.length prompt) >? m)).
    + exists (slice_to prompt m),
        [Warning_truncating (Z.of_nat (String.length prompt)) m].
      split; [reflexivity|]. right. eauto.
    + exists prompt, []. split; [reflexivity|]. now left.
  - exists prompt, []. split; [reflexivity|]. now left.
Qed.

(** X18.  An exception of the tokenizer or of the model ends
    [get_completion] with that exception: after a failed tokenizer call
    neither [generate] nor [decode] is called, after a failed [generate]
    [decode] is not called. *)
Theorem collaborator_failure_ends_the_run prompt max_tokens p :
  tokenized (events (get_completion self prompt max_tokens)) = [p] ->
  (forall e, tokenizer_call self p = Raise e ->
     returned (get_completion self prompt max_tokens) = Raise e /\
     generated (events (get_completion self prompt max_tokens)) = [] /\
     decoded (events (get_completion self prompt max_tokens)) = []) /\
  (forall enc e,
     tokenizer_call self p = Return enc ->
     model_generate self (input_ids enc) (attention_mask enc)
       (Z.of_nat (length (input_ids enc)) + max_tokens)
       (tokenizer_eos_token_id self) 1 = Raise e ->
     returned (get_completion self prompt max_tokens) = Raise e /\
     decoded (events (get_completion self prompt max_tokens)) = []).
Proof.
  destruct (get_completion_prefix prompt max_tokens) as (p' & pre & E & Hpre).
  pose proof (complete_from_fails p' max_tokens) as Hcf.
  pose proof (tokenized_complete_from self p' max_tokens) as Htk.
  rewrite E. unfold events, returned in *. cbn [fst snd].
  destruct Hpre as [->|(l & m & ->)]; cbn [app];
    rewrite ?tokenized_warning, ?generated_warning, ?decoded_warning, Htk;
    intros [= <-]; exact Hcf.
Qed.

(** The model returns no row longer than the [max_length] it is given, when
    that is at least the length of its input. *)
Definition honours_max_length : Prop :=
  forall ids mask max_length pad n rows,
    Z.of_nat (length ids) <= max_length ->
    model_generate self ids mask max_length pad n = Return rows ->
    Forall (fun row => Z.of_nat (length row) <= max_length) rows.

Lemma complete_from_budget p max_tokens tokens :
  honours_max_length -> 0 <= max_tokens ->
  In tokens (decoded (events (complete_from self p max_tokens))) ->
  Z.of_nat (length tokens) <= max_tokens.
Proof.
  intros Hmodel Hpos.
  unfold complete_from, events, mbind, T_bind, emit, ask. cbn.
  destruct (tokenizer_call self p) as [enc|e]; cbn; [|contradiction].
  destruct (model_generate self _ _ _ _ _) as [rows|e] eqn:Eg; cbn;
    [|contradiction].
  apply Hmodel in Eg; [|lia].
  destruct rows as [|row rows]; cbn; [contradiction|].
  apply Forall_cons_1 in Eg as [Hrow _].
  assert (Hlen : Z.of_nat (length (skipn (length (input_ids enc)) row)) <= max_tokens).
  { rewrite length_skipn. lia. }
  destruct (tokenizer_decode self _ _); cbn; intros [<-|[]]; exact Hlen.
Qed.

(** X19.  [generate] is given [max_length = N + max_tokens], [N] being the
    number of prompt tokens, and the first [N] tokens of its output are
    dropped: with a model that returns no more than [max_length] tokens, what
    is decoded has at most [max_tokens] tokens. *)
Theorem completion_within_token_budget prompt max_tokens tokens :
  honours_max_length -> 0 <= max_tokens ->
  In tokens (decoded (events (get_completion self prompt max_tokens))) ->
  Z.of_nat (length tokens) <= max_tokens.
Proof.
  intros Hmodel Hpos.
  destruct (get_completion_prefix prompt max_tokens) as (p' & pre & E & Hpre).
  pose proof (complete_from_budget p' max_tokens tokens Hmodel Hpos) as Hcf.
  rewrite E. unfold events in *. cbn [fst].
  destruct Hpre as [->|(l & m & ->)]; cbn [app];
    rewrite ?decoded_warning; exact Hcf.
Qed.

End CompletionMore.

(** On a prompt of five characters with a limit of three. *)
Lemma text_past_the_limit_is_ignored_witness :
  events (get_completion (toy_mixin (Some 3)) "hello" 1)
  = Warning_truncating 5 3 :: events (get_completion (toy_mixin (Some 3)) "hel" 1) /\
  returned (get_completion (toy_mixin (Some 3)) "hello" 1)
  = returned (get_completion (toy_mixin (Some 3)) "hel" 1).
Proof.
  apply (text_past_the_limit_is_ignored (toy_mixin (Some 3)) "hello" 1 3);
    reflexivity.
Defined.

(** With the limit -2, on a prompt of five characters and on one of one. *)
Lemma negative_limit_cuts_from_the_end_witness :
  tokenized (events (get_completion (toy_mixin (Some (-2))) "hello" 1)) = ["hel"] /\
  tokenized (events (get_completion (toy_mixin (Some (-2))) "h" 1)) = [""].
Proof.
  split.
  - apply (negative_limit_cuts_from_the_end (toy_mixin (Some (-2))) "hello" 1 (-2));
      reflexivity.
  - apply (negative_limit_cuts_from_the_end (toy_mixin (Some (-2))) "h" 1 (-2));
      reflexivity.
Defined.

Lemma collaborator_failure_ends_the_run_witness :
  (returned (get_completion
               (faulty_mixin (Some (OSError "vocab.json not found")) None)
               "hello" 1)
   = Raise (OSError "vocab.json not found") /\
   generated (events (get_completion
               (faulty_mixin (Some (OSError "vocab.json not found")) None)
               "hello" 1)) = [] /\
   decoded (events (get_completion
               (faulty_mixin (Some (OSError "vocab.json not found")) None)
               "hello" 1)) = []) /\
  (returned (get_completion
               (faulty_mixin None (Some (Exception "out of memory")))
               "hello" 1)
   = Raise (Exception "out of memory") /\
   decoded (events (get_completion
               (faulty_mixin None (Some (Exception "out of memory")))
               "hello" 1)) = []).
Proof.
  split.
  - apply (proj1 (collaborator_failure_ends_the_run
                    (faulty_mixin (Some (OSError "vocab.json not found")) None)
                    "hello" 1 "hello" eq_refl)).
    reflexivity.
  - eapply (proj2 (collaborator_failure_ends_the_run
                     (faulty_mixin None (Some (Exception "out of memory")))
                     "hello" 1 "hello" eq_refl));
      reflexivity.
Defined.

Lemma bounded_mixin_honours : honours_max_length bounded_mixin.
Proof.
  intros ids mask max_length pad n rows Hle [= <-].
  constructor; [|constructor]. rewrite length_firstn. lia.
Qed.

(** On a model that would add eight tokens, asked for two. *)
Lemma completion_within_token_budget_witness :
  decoded (events (get_completion bounded_mixin "hello" 2)) = [[33; 33]%nat] /\
  Z.of_nat (length [33; 33]%nat) <= 2.
Proof.
  split; [reflexivity|].
  apply (completion_within_token_budget bounded_mixin "hello" 2).
  - exact bounded_mixin_honours.
  - lia.
  - now left.
Defined.

End LLMMore.

(** ** [__init__] and [get_completion] *)

Module InitProofs.
Import Py LLMMixin LLMInit Examples LLMProofs LLMMore.

Lemma init_sets_limit {token Recording} (lib : Libraries token Recording)
    recording model_name limit self :
  snd (__init__ lib recording model_name limit) = Return self ->
  model_max_length self = limit.
Proof.
  unfold __init__, mbind, W_bind, did. cbn.
  destruct (BaseReplayStrategy_init _ _ lib recording) as [[]|e]; cbn;
    [|discriminate].
  destruct (AutoTokenizer_from_pretrained _ _ lib model_name) as [tk|e]; cbn;
    [|discriminate].
  destruct (AutoModelForCausalLM_from_pretrained _ _ lib model_name) as [md|e];
    cbn; [|discriminate].
  now intros [= <-].
Qed.

(** X20.  A strategy that [__init__] has built with the default
    [model_max_length] ([MODEL_MAX_LENGTH], 1024) hands the tokenizer the
    first 1024 characters of the prompt, the whole prompt when it is not
    longer: never more than 1024 characters. *)
Theorem default_limit_is_1024_characters {token Recording}
    (lib : Libraries token Recording) recording model_name self prompt max_tokens :
  snd (__init__ lib recording model_name (Some MODEL_MAX_LENGTH)) = Return self ->
  tokenized (events (get_completion self prompt max_tokens))
  = [Re.str_take 1024 prompt] /\
  (String.length (Re.str_take 1024 prompt) <= 1024)%nat.
Proof.
  intros Hinit. apply init_sets_limit in Hinit. split; [|apply length_str_take_le].
  destruct (Z_gt_le_dec (Z.of_nat (String.length prompt)) 1024) as [Hgt|Hle].
  - rewrite (get_completion_cut self _ _ 1024) by (auto; discriminate).
    now rewrite slice_to_positive by lia.
  - rewrite get_completion_kept by (right; eauto).
    rewrite tokenized_complete_from. rewrite str_take_all by lia. reflexivity.
Qed.

Lemma default_limit_is_1024_characters_witness :
  tokenized
    (events (get_completion
               {| tokenizer_call := tokenizer_call (toy_mixin None);
                  tokenizer_decode := tokenizer_decode (toy_mixin None);
                  tokenizer_eos_token_id := 0%nat;
                  model_generate := model_generate (toy_mixin None);
                  model_max_length := Some 1024 |}
               (letters 1030) 1))
  = [Re.str_take 1024 (letters 1030)] /\
  (String.length (Re.str_take 1024 (letters 1030)) <= 1024)%nat.
Proof.
  apply (default_limit_is_1024_characters toy_library tt MODEL_NAME).
  reflexivity.
Defined.

End InitProofs.
